(** * Reviewer-Recommender-App: text segmentation, corpus building and
      the dual-channel similarity search.

    The development follows the three modules of the repository and the
    page that calls them:

    - [src/parse_pdf.py]  ([clean_full_text], [extract_multivector_text]),
    - [src/embed.py]      ([build_multivector_database]),
    - [src/similarity.py] ([find_similar_authors]),
    - [app_streamlit.py].

    The library calls the code makes ([str.lower], [str.rfind],
    [str.split], [re.search], numpy, scikit-learn, pandas) are modelled
    next to the function that uses them.

    Texts are modelled twice.  In [PyStr] and [ParsePdf] a Python [str] is
    a Rocq string, its characters the code points below 256, on which
    [str.lower] replaces each character by one character.  In [PyUnicode]
    and [ParsePdfUnicode] a text is a list of arbitrary code points and
    [str.lower] lengthens U+0130; the statements about the place of a cut
    are made there.  On texts of code points below 256 the two agree
    ([clean_full_text_of_string]).

    Scores are modelled twice as well.  In [Similarity] they are real
    numbers: what the arithmetic of the program computes when no operation
    rounds.  In [Binary64] they are binary64 floating-point numbers with
    every operation rounded; the one statement that rounding breaks is
    shown to fail there. *)

From Stdlib Require Import Bool Arith ZArith List Ascii String Lia.
From Stdlib Require Import Reals Lra.
From Stdlib Require Import Sorting.Permutation Sorting.Sorted.
From Stdlib Require Floats Uint63.
Import ListNotations.

(** ** Python strings *)

Module PyStr.

Local Open Scope string_scope.
Local Open Scope nat_scope.

Definition nl : ascii := ascii_of_nat 10.

(** [str.isspace] on one character (also the class [\s] of [re] on [str]
    patterns, and the separators of [str.split()] and [str.strip()]). *)
Definition isspace (c : ascii) : bool :=
  let n := nat_of_ascii c in
  ((9 <=? n) && (n <=? 13)) || ((28 <=? n) && (n <=? 32))
  || (n =? 133) || (n =? 160).

(** [str.lower] on one code point below 256: A-Z and the Latin-1 capitals.
    Each of these characters has a one-character lower case, so [lower]
    keeps the length of such a text; [PyUnicode.lower] is [str.lower] on
    all code points, where U+0130 becomes two characters. *)
Definition lower_char (c : ascii) : ascii :=
  let n := nat_of_ascii c in
  if ((65 <=? n) && (n <=? 90))
     || ((192 <=? n) && (n <=? 222) && negb (n =? 215))
  then ascii_of_nat (n + 32) else c.

Fixpoint lower (s : string) : string :=
  match s with
  | EmptyString => EmptyString
  | String c t => String (lower_char c) (lower t)
  end.

(** [s[:n]] and [s[n:]] for [0 <= n]. *)
Fixpoint take (n : nat) (s : string) : string :=
  match n, s with
  | S k, String c t => String c (take k t)
  | _, _ => EmptyString
  end.

Fixpoint drop (n : nat) (s : string) : string :=
  match n, s with
  | S k, String _ t => drop k t
  | _, _ => s
  end.

(** [s[:stop]] for any integer [stop]: a negative bound counts from the end. *)
Definition slice_to (s : string) (stop : Z) : string :=
  if (stop <? 0)%Z then take (Z.to_nat (Z.of_nat (length s) + stop)) s
  else take (Z.to_nat stop) s.

(** [s[a:b]] for [0 <= a], [0 <= b]. *)
Definition slice (s : string) (a b : nat) : string := take (b - a) (drop a s).

(** [s.rfind(sub)]: the highest index at which [sub] occurs, or -1. *)
Fixpoint rfind (s sub : string) : Z :=
  match s with
  | EmptyString => if prefix sub EmptyString then 0%Z else (-1)%Z
  | String _ t =>
      let r := rfind t sub in
      if (0 <=? r)%Z then (r + 1)%Z
      else if prefix sub s then 0%Z else (-1)%Z
  end.

(** [s.strip()]. *)
Fixpoint lstrip (s : string) : string :=
  match s with
  | EmptyString => EmptyString
  | String c t => if isspace c then lstrip t else s
  end.

Fixpoint rstrip (s : string) : string :=
  match s with
  | EmptyString => EmptyString
  | String c t =>
      match rstrip t with
      | EmptyString => if isspace c then EmptyString else String c EmptyString
      | r => String c r
      end
  end.

Definition strip (s : string) : string := rstrip (lstrip s).

(** Truthiness of a [str]: the empty string is false. *)
Definition truthy (s : string) : bool :=
  match s with EmptyString => false | _ => true end.

(** [s.split()]: the maximal runs of non-whitespace characters. *)
Definition at_word_end (s : string) : bool :=
  match s with
  | EmptyString => true
  | String c _ => isspace c
  end.

Fixpoint split (s : string) : list string :=
  match s with
  | EmptyString => []
  | String c t =>
      if isspace c then split t
      else if at_word_end t then String c EmptyString :: split t
      else match split t with
           | w :: ws => String c w :: ws
           | [] => [String c EmptyString]
           end
  end.

(** [sep.join(words)]. *)
Definition join (sep : string) (words : list string) : string :=
  String.concat sep words.

(** [re.search(p, s)] for a pattern whose match at a position is decided by
    the text before that position (look-behind) and the text from it on;
    the result is [match.start()].  [before] is kept reversed. *)
Fixpoint search_from (p : string -> string -> bool)
    (before after : string) (i : nat) : option nat :=
  if p before after then Some i
  else match after with
       | EmptyString => None
       | String c rest => search_from p (String c before) rest (S i)
       end.

Definition re_search (p : string -> string -> bool) (s : string) : option nat :=
  search_from p EmptyString s 0.

(** An alternation of literals: [a|b|c]. *)
Definition literals (alts : list string) (_ after : string) : bool :=
  existsb (fun a => prefix a after) alts.

End PyStr.

(** ** src/parse_pdf.py *)

Module ParsePdf.

Import PyStr.
Local Open Scope string_scope.
Local Open Scope nat_scope.

Definition references_marker : string := String nl "references".
Definition bibliography_marker : string := String nl "bibliography".

Definition clean_full_text (text : string) : string :=
  let text_lower := lower text in
  let ref_pos := rfind text_lower references_marker in
  let bib_pos := rfind text_lower bibliography_marker in
  let split_pos := Z.max ref_pos bib_pos in
  if negb (split_pos =? -1)%Z then slice_to text split_pos
  else text.

(** [(?<!in\s)abstract] *)
Definition abstract_re (before after : string) : bool :=
  negb (match before with
        | String s (String "n" (String "i" _)) => isspace s
        | _ => false
        end)
  && prefix "abstract" after.

(** [introduction|keywords|\n1\.] *)
Definition abstract_end_re : string -> string -> bool :=
  literals ["introduction"; "keywords"; String nl "1."].

(** [introduction] *)
Definition introduction_re : string -> string -> bool :=
  literals ["introduction"].

(** [methods|related work|background|\n2\.] *)
Definition intro_end_re : string -> string -> bool :=
  literals ["methods"; "related work"; "background"; String nl "2."].

(** The [best_text] accumulated by section 2 of [extract_multivector_text]
    (the abstract part, then the introduction part), before the final check. *)
Definition abstract_part (full_text full_text_lower : string) : string :=
  match re_search abstract_re full_text_lower with
  | Some abstract_start =>
      match re_search abstract_end_re (drop abstract_start full_text_lower) with
      | Some e =>
          let abstract_end := abstract_start + e in
          slice full_text abstract_start abstract_end
      | None =>
          join " " (firstn 500 (split (drop abstract_start full_text)))
      end
  | None => ""
  end.

Definition intro_part (full_text full_text_lower : string) : string :=
  match re_search introduction_re full_text_lower with
  | Some intro_start =>
      match re_search intro_end_re (drop intro_start full_text_lower) with
      | Some e =>
          let intro_end := intro_start + e in
          String nl (slice full_text intro_start intro_end)
      | None =>
          String nl (join " " (firstn 1000 (split (drop intro_start full_text))))
      end
  | None => ""
  end.

Definition abstract_intro_text (full_text : string) : string :=
  let full_text_lower := lower full_text in
  abstract_part full_text full_text_lower
  ++ intro_part full_text full_text_lower.

Record Texts := mkTexts {
  best_text : option string;
  full_text : option string
}.

(** What [fitz] gives for a path: the text of each page, or an exception. *)
Definition Document := option (list string).

(** The loop [for page in doc: full_text += page.get_text() + "\n"]. *)
Definition read_pages (pages : list string) : string :=
  fold_left (fun acc page => acc ++ page ++ String nl "") pages "".

Definition extract_multivector_text (doc : Document) : Texts :=
  match doc with
  | None => mkTexts None None
  | Some pages =>
      let full_text := read_pages pages in
      if negb (truthy (strip full_text)) then mkTexts None None
      else
        let cleaned_full_text := clean_full_text full_text in
        let best_text := abstract_intro_text full_text in
        let best_text :=
          if List.length (split best_text) <? 100 then None else Some best_text in
        mkTexts best_text (Some cleaned_full_text)
  end.

End ParsePdf.

(** ** The database: one record (a Python dict) per paper *)

Module Database.

Definition vector := list R.

Record PaperRecord := mkRecord {
  author : string;
  paper : string;
  best_text_embedding : option vector;
  full_text_embedding : option vector
}.

End Database.

(** ** src/embed.py *)

Module Embed.

Import PyStr ParsePdf Database.
Local Open Scope string_scope.

(** One entry of [sorted(dataset_dir.glob('*/*.pdf'))]: the name of the
    parent folder, the stem of the file, and what [fitz] reads from it. *)
Record PdfFile := mkPdf {
  parent_name : string;
  stem : string;
  contents : Document
}.

Section Build.

(** [model.encode(text, convert_to_numpy=True)] *)
Variable encode : string -> vector.

(** [e = None; if text: e = model.encode(text)] *)
Definition embed_text (text : option string) : option vector :=
  match text with
  | Some s => if truthy s then Some (encode s) else None
  | None => None
  end.

(** The body of the loop over [pdf_files]: the record appended. *)
Definition process_pdf (pdf_path : PdfFile) : PaperRecord :=
  let author_name := parent_name pdf_path in
  let paper_name := author_name ++ "__" ++ stem pdf_path ++ ".pdf" in
  let texts := extract_multivector_text (contents pdf_path) in
  let best_text_embedding := embed_text (best_text texts) in
  let full_text_embedding := embed_text (full_text texts) in
  mkRecord author_name paper_name best_text_embedding full_text_embedding.

(** The records pickled to [out_file]; [None] when the function returns
    early (no .pdf file found) and writes nothing. *)
Definition build_multivector_database (pdf_files : list PdfFile)
  : option (list PaperRecord) :=
  match pdf_files with
  | [] => None
  | _ =>
      Some (fold_left (fun database_records pdf_path =>
                         (database_records ++ [process_pdf pdf_path])%list)
                      pdf_files [])
  end.

End Build.

End Embed.

(** ** src/similarity.py *)

Module Similarity.

Import Database.
Local Open Scope R_scope.

(** A call either returns or raises; every exception on the paths modelled
    here is a [ValueError] (numpy's and scikit-learn's input checks). *)
Inductive result (A : Type) : Type :=
| Ok (a : A)
| ValueError.
Arguments Ok {A} a.
Arguments ValueError {A}.

Definition bind {A B : Type} (r : result A) (k : A -> result B) : result B :=
  match r with
  | Ok a => k a
  | ValueError => ValueError
  end.

Notation "x <- r ;; k" := (bind r (fun x => k))
  (at level 61, r at next level, right associativity).

(** *** numpy *)

(** The arrays the function builds: shape [(n,)] or shape [(n, d)]. *)
Inductive ndarray : Type :=
| Arr1 (values : list R)
| Arr2 (rows : list vector).

Definition np_zeros (n : nat) : vector := repeat 0 n.

(** [np.array(rows)] on a list of 1-d arrays: the empty list gives an empty
    1-d array, rows of one length a matrix, rows of different lengths an
    error. *)
Definition np_array (rows : list vector) : result ndarray :=
  match rows with
  | [] => Ok (Arr1 [])
  | r :: rest =>
      if forallb (fun r' => Nat.eqb (List.length r') (List.length r)) rest
      then Ok (Arr2 rows) else ValueError
  end.

(** [np.maximum(a, b)] on two arrays of one shape. *)
Definition np_maximum (a b : list R) : list R :=
  map (fun ab => Rmax (fst ab) (snd ab)) (combine a b).

(** *** scikit-learn *)

Definition dot (u v : vector) : R :=
  fold_right (fun xy acc => fst xy * snd xy + acc) 0 (combine u v).

Definition row_norm (v : vector) : R := sqrt (dot v v).

(** Machine epsilon of float64, the dtype of a matrix as soon as one of its
    rows is [np.zeros(embedding_dim)]; a float32 matrix has a larger one.
    The facts below use only that it is positive. *)
Definition eps : R := / 2 ^ 52.

(** [_handle_zeros_in_scale]: a norm below [10 * eps] (so a zero norm) is
    replaced by 1. *)
Definition handle_zeros_in_scale (scale : R) : R :=
  if Rlt_dec scale (10 * eps) then 1 else scale.

(** [normalize(X)] on one row. *)
Definition normalize (v : vector) : vector :=
  map (fun x => x / handle_zeros_in_scale (row_norm v)) v.

(** One entry of the product of the normalised matrices, without rounding
    ([Binary64.cosine] rounds). *)
Definition cosine (x y : vector) : R := dot (normalize x) (normalize y).

(** [cosine_similarity([x], Y).flatten()]: both arguments are checked
    (two-dimensional, at least one row and one column, same number of
    columns), normalised by row, and multiplied. *)
Definition cosine_similarity (x : vector) (Y : ndarray) : result (list R) :=
  match Y with
  | Arr1 _ => ValueError
  | Arr2 rows =>
      if Nat.eqb (List.length x) 0 then ValueError
      else if forallb (fun y => Nat.eqb (List.length y) (List.length x)) rows
      then Ok (map (fun y => cosine x y) rows)
      else ValueError
  end.

(** *** pandas *)

(** A row of [df]. *)
Record PaperScore := mkPaperScore {
  df_author : string;
  df_paper : string;
  df_score : R
}.

(** A row of the table returned: columns author, mean, count, max. *)
Record AuthorScore := mkAuthorScore {
  row_author : string;
  row_mean : R;
  row_count : nat;
  row_max : R
}.

(** [pd.DataFrame({'author': ..., 'paper': ..., 'score': ...})]; the three
    columns have one length, the number of records. *)
Fixpoint data_frame (authors papers : list string) (scores : list R)
  : list PaperScore :=
  match authors, papers, scores with
  | a :: authors', p :: papers', s :: scores' =>
      mkPaperScore a p s :: data_frame authors' papers' scores'
  | _, _, _ => []
  end.

(** The group keys of [groupby('author')]: the distinct authors, sorted. *)
Fixpoint insert_key (a : string) (keys : list string) : list string :=
  match keys with
  | [] => [a]
  | b :: rest => if String.leb a b then a :: keys else b :: insert_key a rest
  end.

Definition group_keys (df : list PaperScore) : list string :=
  fold_right insert_key [] (nodup string_dec (map df_author df)).

(** The scores of one group, [df.groupby('author')['score']]. *)
Definition group_scores (df : list PaperScore) (a : string) : list R :=
  map df_score (filter (fun r => String.eqb (df_author r) a) df).

Definition series_sum (l : list R) : R := fold_right Rplus 0 l.

(** The exact mean of a group; the mean pandas computes in binary64 is
    [Binary64.series_mean]. *)
Definition series_mean (l : list R) : R := series_sum l / INR (List.length l).

(** The maximum of a group; a group is never empty. *)
Definition series_max (l : list R) : R :=
  match l with
  | [] => 0
  | x :: rest => fold_left Rmax rest x
  end.

(** [.agg(['mean', 'count']).reset_index()] *)
Definition agg_mean_count (df : list PaperScore) : list (string * (R * nat)) :=
  map (fun a => let g := group_scores df a in (a, (series_mean g, List.length g)))
      (group_keys df).

(** [.max().reset_index().rename(columns={'score': 'max'})] *)
Definition agg_max (df : list PaperScore) : list (string * R) :=
  map (fun a => (a, series_max (group_scores df a))) (group_keys df).

(** [pd.merge(left, right, on='author')]: the inner join, in the order of
    the left keys. *)
Definition merge (left : list (string * (R * nat))) (right : list (string * R))
  : list AuthorScore :=
  flat_map (fun l =>
    map (fun r => mkAuthorScore (fst l) (fst (snd l)) (snd (snd l)) (snd r))
        (filter (fun r => String.eqb (fst r) (fst l)) right)) left.

(** [sort_values(by='max', ascending=False)]; rows of equal [max] keep
    their relative order here (pandas promises no order among them). *)
Fixpoint insert_desc (x : AuthorScore) (l : list AuthorScore) : list AuthorScore :=
  match l with
  | [] => [x]
  | y :: rest =>
      if Rle_dec (row_max y) (row_max x) then x :: l
      else y :: insert_desc x rest
  end.

Definition sort_values_max (l : list AuthorScore) : list AuthorScore :=
  fold_right insert_desc [] l.

(** [df.head(n)], that is [df.iloc[:n]]: a negative [n] drops the last
    [-n] rows. *)
Definition head {A : Type} (n : Z) (l : list A) : list A :=
  if (n <? 0)%Z then firstn (Z.to_nat (Z.of_nat (List.length l) + n)) l
  else firstn (Z.to_nat n) l.

(** *** find_similar_authors *)

(** [record[...] if record[...] is not None else np.zeros(embedding_dim)] *)
Definition embedding_or_zeros (embedding_dim : nat) (e : option vector) : vector :=
  match e with
  | Some v => v
  | None => np_zeros embedding_dim
  end.

(** Steps 1 to 3: the two channel scores and the final score of each paper,
    in the order of the database. *)
Definition paper_scores (query_best_vector query_full_vector : vector)
    (embedding_dim : nat) (database : list PaperRecord)
  : result (list R * list R * list R) :=
  let best_text_embeddings :=
    map (fun record => embedding_or_zeros embedding_dim (best_text_embedding record))
        database in
  let full_text_embeddings :=
    map (fun record => embedding_or_zeros embedding_dim (full_text_embedding record))
        database in
  db_best_text_matrix <- np_array best_text_embeddings ;;
  db_full_text_matrix <- np_array full_text_embeddings ;;
  score_A <- cosine_similarity query_best_vector db_best_text_matrix ;;
  score_B <- cosine_similarity query_full_vector db_full_text_matrix ;;
  let final_scores := np_maximum score_A score_B in
  Ok (score_A, score_B, final_scores).

(** Step 4 up to the sort: the table of all authors, best [max] first. *)
Definition author_table (database : list PaperRecord) (final_scores : list R)
  : list AuthorScore :=
  let authors := map author database in
  let papers := map paper database in
  let df := data_frame authors papers final_scores in
  let author_scores := agg_mean_count df in
  let author_max_scores := agg_max df in
  let author_scores := merge author_scores author_max_scores in
  sort_values_max author_scores.

(** [st_model] enters only through [get_sentence_embedding_dimension()]. *)
Definition find_similar_authors (query_best_vector query_full_vector : vector)
    (embedding_dim : nat) (database : list PaperRecord) (top_k : Z)
  : result (list AuthorScore) :=
  scores <- paper_scores query_best_vector query_full_vector
                         embedding_dim database ;;
  let final_scores := snd scores in
  Ok (head top_k (author_table database final_scores)).

End Similarity.

(** ** src/similarity.py in binary64

    The same function on arrays of dtype float64 (what [np.zeros] gives,
    and what the matrices become as soon as one record lacks an embedding),
    with every operation rounded as the processor rounds it.  Sums run from
    left to right; the values are assumed finite (scikit-learn refuses the
    others). *)

Module Binary64.

Import PrimFloat.
Local Open Scope float_scope.

Definition vector := list float.

Record PaperRecord := mkRecord {
  author : string;
  paper : string;
  best_text_embedding : option vector;
  full_text_embedding : option vector
}.

Inductive ndarray : Type :=
| Arr1 (values : list float)
| Arr2 (rows : list vector).

Definition np_zeros (n : nat) : vector := repeat 0 n.

Definition np_array (rows : list vector) : Similarity.result ndarray :=
  match rows with
  | [] => Similarity.Ok (Arr1 [])
  | r :: rest =>
      if forallb (fun r' => Nat.eqb (List.length r') (List.length r)) rest
      then Similarity.Ok (Arr2 rows) else Similarity.ValueError
  end.

(** [np.maximum(a, b)] *)
Definition maximum (a b : float) : float := if a <=? b then b else a.

Definition np_maximum (a b : list float) : list float :=
  map (fun ab => maximum (fst ab) (snd ab)) (combine a b).

Definition dot (u v : vector) : float :=
  fold_left (fun acc xy => acc + fst xy * snd xy) (combine u v) 0.

Definition row_norm (v : vector) : float := sqrt (dot v v).

(** [np.finfo(np.float64).eps] *)
Definition eps : float := 0x1p-52.

Definition handle_zeros_in_scale (scale : float) : float :=
  if scale <? 10 * eps then 1 else scale.

Definition normalize (v : vector) : vector :=
  map (fun x => x / handle_zeros_in_scale (row_norm v)) v.

Definition cosine (x y : vector) : float := dot (normalize x) (normalize y).

Definition cosine_similarity (x : vector) (Y : ndarray)
  : Similarity.result (list float) :=
  match Y with
  | Arr1 _ => Similarity.ValueError
  | Arr2 rows =>
      if Nat.eqb (List.length x) 0 then Similarity.ValueError
      else if forallb (fun y => Nat.eqb (List.length y) (List.length x)) rows
      then Similarity.Ok (map (fun y => cosine x y) rows)
      else Similarity.ValueError
  end.

Record PaperScore := mkPaperScore {
  df_author : string;
  df_paper : string;
  df_score : float
}.

Record AuthorScore := mkAuthorScore {
  row_author : string;
  row_mean : float;
  row_count : nat;
  row_max : float
}.

Fixpoint data_frame (authors papers : list string) (scores : list float)
  : list PaperScore :=
  match authors, papers, scores with
  | a :: authors', p :: papers', s :: scores' =>
      mkPaperScore a p s :: data_frame authors' papers' scores'
  | _, _, _ => []
  end.

Definition group_keys (df : list PaperScore) : list string :=
  fold_right Similarity.insert_key [] (nodup string_dec (map df_author df)).

Definition group_scores (df : list PaperScore) (a : string) : list float :=
  map df_score (filter (fun r => String.eqb (df_author r) a) df).

(** The sum of a group as pandas' [group_mean] accumulates it (Kahan's
    compensated summation), and the plain sum. *)
Fixpoint kahan_sum (values : list float) (sumx compensation : float) : float :=
  match values with
  | [] => sumx
  | val :: rest =>
      let y := val - compensation in
      let t := sumx + y in
      kahan_sum rest t (t - sumx - y)
  end.

Definition plain_sum (values : list float) : float :=
  fold_left (fun acc val => acc + val) values 0.

Definition count_float (n : nat) : float :=
  of_uint63 (Uint63.of_Z (Z.of_nat n)).

Definition series_mean (l : list float) : float :=
  kahan_sum l 0 0 / count_float (List.length l).

Definition series_max (l : list float) : float :=
  match l with
  | [] => 0
  | x :: rest => fold_left (fun acc val => if acc <? val then val else acc) rest x
  end.

Definition agg_mean_count (df : list PaperScore) : list (string * (float * nat)) :=
  map (fun a => let g := group_scores df a in (a, (series_mean g, List.length g)))
      (group_keys df).

Definition agg_max (df : list PaperScore) : list (string * float) :=
  map (fun a => (a, series_max (group_scores df a))) (group_keys df).

Definition merge (left : list (string * (float * nat)))
    (right : list (string * float)) : list AuthorScore :=
  flat_map (fun l =>
    map (fun r => mkAuthorScore (fst l) (fst (snd l)) (snd (snd l)) (snd r))
        (filter (fun r => String.eqb (fst r) (fst l)) right)) left.

Fixpoint insert_desc (x : AuthorScore) (l : list AuthorScore) : list AuthorScore :=
  match l with
  | [] => [x]
  | y :: rest =>
      if row_max y <=? row_max x then x :: l
      else y :: insert_desc x rest
  end.

Definition sort_values_max (l : list AuthorScore) : list AuthorScore :=
  fold_right insert_desc [] l.

Definition embedding_or_zeros (embedding_dim : nat) (e : option vector) : vector :=
  match e with
  | Some v => v
  | None => np_zeros embedding_dim
  end.

Definition find_similar_authors (query_best_vector query_full_vector : vector)
    (embedding_dim : nat) (database : list PaperRecord) (top_k : Z)
  : Similarity.result (list AuthorScore) :=
  let authors := map author database in
  let papers := map paper database in
  let best_text_embeddings :=
    map (fun record => embedding_or_zeros embedding_dim (best_text_embedding record))
        database in
  let full_text_embeddings :=
    map (fun record => embedding_or_zeros embedding_dim (full_text_embedding record))
        database in
  Similarity.bind (np_array best_text_embeddings) (fun db_best_text_matrix =>
  Similarity.bind (np_array full_text_embeddings) (fun db_full_text_matrix =>
  Similarity.bind (cosine_similarity query_best_vector db_best_text_matrix)
    (fun score_A =>
  Similarity.bind (cosine_similarity query_full_vector db_full_text_matrix)
    (fun score_B =>
  let final_scores := np_maximum score_A score_B in
  let df := data_frame authors papers final_scores in
  let author_scores := agg_mean_count df in
  let author_max_scores := agg_max df in
  let author_scores := merge author_scores author_max_scores in
  let author_scores := sort_values_max author_scores in
  Similarity.Ok (Similarity.head top_k author_scores))))).

(** Three papers of one author with the same focused embedding and no full
    embedding, a paper of another author with no embedding at all (its
    rows of zeros make both matrices float64 whatever the dtype of the
    stored embeddings), and a query at cosine 4/5 from that embedding. *)
Definition same_three : list PaperRecord :=
  [mkRecord "alice" "alice__a.pdf" (Some [1; 0]) None;
   mkRecord "alice" "alice__b.pdf" (Some [1; 0]) None;
   mkRecord "alice" "alice__c.pdf" (Some [1; 0]) None;
   mkRecord "bob" "bob__d.pdf" None None].

Definition query_4_3 : vector := [4; 3].

End Binary64.

(** ** app_streamlit.py *)

Module App.

Import PyStr ParsePdf Database Similarity.
Local Open Scope R_scope.

(** The radio button "Ranking Method": 'max' or 'mean'. *)
Inductive RankingMethod : Type :=
| by_max
| by_mean.

(** The column [res_df[ranking_method]]. *)
Definition column (ranking_method : RankingMethod) (row : AuthorScore) : R :=
  match ranking_method with
  | by_max => row_max row
  | by_mean => row_mean row
  end.

(** [res_df.sort_values(by=..., ascending=False)] on a column of scores;
    as in [sort_values_max], rows of equal score keep their order here. *)
Fixpoint insert_desc_by (key : AuthorScore -> R) (x : AuthorScore)
    (l : list AuthorScore) : list AuthorScore :=
  match l with
  | [] => [x]
  | y :: rest =>
      if Rle_dec (key y) (key x) then x :: l
      else y :: insert_desc_by key x rest
  end.

Definition sort_values_by (key : AuthorScore -> R) (l : list AuthorScore)
  : list AuthorScore :=
  fold_right (insert_desc_by key) [] l.

(** [not text] for a text that may be [None]. *)
Definition falsy (text : option string) : bool :=
  match text with
  | Some s => negb (truthy s)
  | None => true
  end.

(** [text or ""] *)
Definition or_empty (text : option string) : string :=
  match text with
  | Some s => if truthy s then s else EmptyString
  | None => EmptyString
  end.

(** What the page shows once a file is uploaded and the button pressed:
    the error message of the extraction check, the table of reviewers, or
    the exception of [find_similar_authors], which the script does not
    catch. *)
Inductive View : Type :=
| FailedToExtract
| Recommended (res_df : list AuthorScore)
| Uncaught.

Section Upload.

(** [st_model.encode] and [st_model.get_sentence_embedding_dimension()]. *)
Variable encode : string -> vector.
Variable embedding_dim : nat.

(** The script from [extract_multivector_text(str(tmp_path))] to the sort
    by the user's choice; [top_k] is the value of the slider. *)
Definition find_reviewers (database : list PaperRecord) (uploaded : Document)
    (top_k : Z) (ranking_method : RankingMethod) : View :=
  let query_texts := extract_multivector_text uploaded in
  if falsy (best_text query_texts) && falsy (full_text query_texts)
  then FailedToExtract
  else
    let query_best_vector := encode (or_empty (best_text query_texts)) in
    let query_full_vector := encode (or_empty (full_text query_texts)) in
    match find_similar_authors query_best_vector query_full_vector
                               embedding_dim database top_k with
    | Ok res_df => Recommended (sort_values_by (column ranking_method) res_df)
    | ValueError => Uncaught
    end.

End Upload.

End App.

(** ** Vocabulary of the statements *)

Module Vocabulary.

Import PyStr ParsePdf Database Similarity.
Local Open Scope string_scope.
Local Open Scope nat_scope.

(** [sub] occurs in [s] at index [i]. *)
Definition occurs_at (sub s : string) (i : nat) : Prop :=
  i <= length s /\ prefix sub (drop i s) = true.

(** The marker the code looks for: a newline immediately followed, in any
    letter case, by the word "references" or "bibliography"; [i] is the
    index of the newline. *)
Definition marker_at (text : string) (i : nat) : Prop :=
  occurs_at references_marker (lower text) i
  \/ occurs_at bibliography_marker (lower text) i.

(** A heading in the words of the specification: the word "references" or
    "bibliography", in any letter case, at the start of a line, that is at
    the start of the text or right after a newline; [i] is the index of the
    first letter of the word. *)
Definition line_start (text : string) (i : nat) : bool :=
  match i with
  | 0 => true
  | S k => match get k text with
           | Some c => Ascii.eqb c nl
           | None => false
           end
  end.

Definition line_initial_heading (text : string) (i : nat) : bool :=
  line_start text i
  && (i <? length text)
  && (prefix "references" (drop i (lower text))
      || prefix "bibliography" (drop i (lower text))).

(** Every character is white space (so [strip] leaves nothing). *)
Fixpoint all_space (s : string) : bool :=
  match s with
  | EmptyString => true
  | String c t => isspace c && all_space t
  end.

(** A pattern that can only match where a visible character stands. *)
Definition starts_visible (p : string -> string -> bool) : Prop :=
  forall before after, p before after = true ->
    match after with
    | EmptyString => False
    | String c _ => isspace c = false
    end.

(** The number of whitespace-delimited tokens. *)
Definition tokens (s : string) : nat := List.length (split s).

(** [n] words "w" separated by single spaces, for the boundary examples. *)
Fixpoint words (n : nat) : string :=
  match n with
  | 0 => ""
  | S k => " w" ++ words k
  end.

(** The embeddings of a database and the two query vectors all have the
    dimension of the model, which is positive. *)
Definition has_dim (d : nat) (e : option vector) : bool :=
  match e with
  | Some v => List.length v =? d
  | None => true
  end.

Definition well_formed (query_best_vector query_full_vector : vector)
    (embedding_dim : nat) (database : list PaperRecord) : bool :=
  (0 <? embedding_dim)
  && (List.length query_best_vector =? embedding_dim)
  && (List.length query_full_vector =? embedding_dim)
  && forallb (fun r => has_dim embedding_dim (best_text_embedding r)
                       && has_dim embedding_dim (full_text_embedding r))
             database.

(** The distinct authors of a database. *)
Definition distinct_authors (database : list PaperRecord) : list string :=
  nodup string_dec (map author database).

(** The final scores of the papers of one author, in database order. *)
Definition scores_of_author (database : list PaperRecord) (final_scores : list R)
    (a : string) : list R :=
  map snd (filter (fun rs => String.eqb (author (fst rs)) a)
                  (combine database final_scores)).

(** A table is in descending order of its [max] column. *)
Definition max_descending (table : list AuthorScore) : Prop :=
  StronglySorted (fun x y => (row_max y <= row_max x)%R) table.

(** Sample data: a paper with a focused embedding only, one with a full
    embedding only, and databases of two and of ten authors for a model of
    dimension 2. *)
Definition focused_only (a : string) : PaperRecord :=
  mkRecord a (a ++ "__paper.pdf") (Some [1; 0]%R) None.

Definition full_only (a : string) : PaperRecord :=
  mkRecord a (a ++ "__paper.pdf") None (Some [0; 1]%R).

Definition two_authors : list PaperRecord :=
  [focused_only "alice"; full_only "bob"].

Definition ten_authors : list PaperRecord :=
  map focused_only ["a0"; "a1"; "a2"; "a3"; "a4"]
  ++ map full_only ["a5"; "a6"; "a7"; "a8"; "a9"].

Definition sample_query : vector := [1; 1]%R.

(** A one-page document whose first line is the heading of its reference
    list. *)
Definition heading_first : list string :=
  ["References" ++ String nl "[1] A. Author. A title."].

(** The records a run of the corpus builder writes: none when it returns
    early. *)
Definition records_written (r : option (list PaperRecord)) : list PaperRecord :=
  match r with
  | Some database => database
  | None => []
  end.

(** A corpus of two papers; the first cannot be read. *)
Definition sample_corpus : list Embed.PdfFile :=
  [Embed.mkPdf "alice" "broken" None;
   Embed.mkPdf "bob" "thesis" (Some ["abstract" ++ words 120])].

(** A document with an empty first page whose text starts with the
    reference list. *)
Definition references_only : Embed.PdfFile :=
  Embed.mkPdf "carol" "refs"
    (Some [""; "References" ++ String nl "[1] A. Author. A title."]).

End Vocabulary.

(** ** Vocabulary of the further statements *)

Module Vocabulary2.

Import PyStr ParsePdf Database Similarity App Vocabulary.
Local Open Scope string_scope.
Local Open Scope nat_scope.



(** The first [j] characters of [s], last one first, put before [acc]: the
    look-behind text of a search that has advanced by [j]. *)
Fixpoint rev_onto (s acc : string) : string :=
  match s with
  | EmptyString => acc
  | String c t => rev_onto t (String c acc)
  end.

(** The pattern [p] matches in [s] at index [j]. *)
Definition matches_at (p : string -> string -> bool) (s : string) (j : nat) : bool :=
  p (rev_onto (take j s) EmptyString) (drop j s).

(** The literals that end the abstract and the introduction. *)
Definition abstract_end_words : list string :=
  ["introduction"; "keywords"; String nl "1."].

Definition intro_end_words : list string :=
  ["methods"; "related work"; "background"; String nl "2."].

(** [word] occurs in [s] at index [j] and ends within [s]. *)
Definition occurs_within (word s : string) (j : nat) : bool :=
  (j + length word <=? length s) && prefix word (drop j s).

(** The inputs on which [find_similar_authors] returns: a database with a
    record, query vectors with an entry, and every embedding (zeros of the
    model's dimension where absent) as long as the query of its channel. *)
Definition consistent (query_best_vector query_full_vector : vector)
    (embedding_dim : nat) (database : list PaperRecord) : bool :=
  match database with
  | [] => false
  | _ =>
      negb (List.length query_best_vector =? 0)
      && negb (List.length query_full_vector =? 0)
      && forallb (fun r =>
           (List.length (embedding_or_zeros embedding_dim (best_text_embedding r))
            =? List.length query_best_vector)
           && (List.length (embedding_or_zeros embedding_dim (full_text_embedding r))
               =? List.length query_full_vector))
         database
  end.

(** A table is in descending order of the column [key]. *)
Definition descending_by (key : AuthorScore -> R) (table : list AuthorScore) : Prop :=
  StronglySorted (fun x y => (key y <= key x)%R) table.

(** A short paper with all four section markers, and one without any
    terminator. *)
Definition short_paper : string :=
  "A Title" ++ String nl "Abstract We study graphs." ++ String nl
  "Keywords: graphs" ++ String nl "1. Introduction We begin here."
  ++ String nl "2. Methods We count.".

Definition unterminated_paper : string :=
  "Abstract we study graphs and the intro duction follows".

(** A model that embeds every text as one unit vector of dimension 2. *)
Definition unit_encoder (_ : string) : vector := [1; 0]%R.

End Vocabulary2.

(** ** Python strings on all code points

    [PyStr] and [ParsePdf] above read a text as code points below 256, on
    which [str.lower] keeps the length of the text.  Here a text is a list
    of arbitrary code points and [str.lower] may lengthen it, so that an
    index found in [text.lower()] need not be the index of the same
    character in [text]. *)

Module PyUnicode.

Local Open Scope N_scope.

Definition str := list N.

(** The code points of a literal. *)
Definition of_string (s : string) : str :=
  map N_of_ascii (list_ascii_of_string s).

Definition nl : N := 10.

(** U+0130, LATIN CAPITAL LETTER I WITH DOT ABOVE: the one code point whose
    lower case is two code points (U+0069 U+0307). *)
Definition dotted_I : N := 304.

(** [str.isspace] on one code point (also [\s] of [re], and the separators
    of [str.split()] and [str.strip()]). *)
Definition isspace (c : N) : bool :=
  ((9 <=? c) && (c <=? 13)) || ((28 <=? c) && (c <=? 32))
  || (c =? 133) || (c =? 160) || (c =? 5760)
  || ((8192 <=? c) && (c <=? 8202))
  || (c =? 8232) || (c =? 8233) || (c =? 8239) || (c =? 8287) || (c =? 12288).

Section Lower.

(** The lower-case table of Unicode for the other code points: the single
    code point that stands for [c] in [s.lower()], given the characters
    before [c] (nearest first) and after it (Python chooses between the two
    lower-case sigmas by these). *)
Variable table : str -> N -> str -> N.

Definition lower_cp (before : str) (c : N) (after : str) : str :=
  if c =? dotted_I then [105; 775] else [table before c after].

Fixpoint lower_from (before s : str) : str :=
  match s with
  | [] => []
  | c :: rest => (lower_cp before c rest ++ lower_from (c :: before) rest)%list
  end.

(** [s.lower()] *)
Definition lower (s : str) : str := lower_from [] s.

End Lower.

(** [s.startswith(sub)] *)
Fixpoint starts_with (sub s : str) : bool :=
  match sub, s with
  | [], _ => true
  | a :: sub', c :: s' => (a =? c) && starts_with sub' s'
  | _ :: _, [] => false
  end.

(** [s.rfind(sub)] *)
Fixpoint rfind (s sub : str) : Z :=
  match s with
  | [] => if starts_with sub [] then 0%Z else (-1)%Z
  | _ :: t =>
      let r := rfind t sub in
      if (0 <=? r)%Z then (r + 1)%Z
      else if starts_with sub s then 0%Z else (-1)%Z
  end.

(** [s[:stop]] for any integer [stop]. *)
Definition slice_to (s : str) (stop : Z) : str :=
  if (stop <? 0)%Z then firstn (Z.to_nat (Z.of_nat (List.length s) + stop)) s
  else firstn (Z.to_nat stop) s.

(** [s[a:b]] for [0 <= a], [0 <= b]. *)
Definition slice (s : str) (a b : nat) : str := firstn (b - a) (skipn a s).

Fixpoint lstrip (s : str) : str :=
  match s with
  | [] => []
  | c :: t => if isspace c then lstrip t else s
  end.

Fixpoint rstrip (s : str) : str :=
  match s with
  | [] => []
  | c :: t =>
      match rstrip t with
      | [] => if isspace c then [] else [c]
      | r => c :: r
      end
  end.

Definition strip (s : str) : str := rstrip (lstrip s).

Definition truthy (s : str) : bool :=
  match s with [] => false | _ => true end.

Definition at_word_end (s : str) : bool :=
  match s with
  | [] => true
  | c :: _ => isspace c
  end.

(** [s.split()] *)
Fixpoint split (s : str) : list str :=
  match s with
  | [] => []
  | c :: t =>
      if isspace c then split t
      else if at_word_end t then [c] :: split t
      else match split t with
           | w :: ws => (c :: w) :: ws
           | [] => [[c]]
           end
  end.

(** [sep.join(words)] *)
Fixpoint join (sep : str) (words : list str) : str :=
  match words with
  | [] => []
  | w :: rest =>
      match rest with
      | [] => w
      | _ => (w ++ sep ++ join sep rest)%list
      end
  end.

(** [re.search(p, s).start()], as in [PyStr]. *)
Fixpoint search_from (p : str -> str -> bool)
    (before after : str) (i : nat) : option nat :=
  if p before after then Some i
  else match after with
       | [] => None
       | c :: rest => search_from p (c :: before) rest (S i)
       end.

Definition re_search (p : str -> str -> bool) (s : str) : option nat :=
  search_from p [] s 0.

Definition literals (alts : list str) (_ after : str) : bool :=
  existsb (fun a => starts_with a after) alts.

End PyUnicode.

(** ** src/parse_pdf.py on all code points *)

Module ParsePdfUnicode.

Import PyUnicode.

Definition references_marker : str := nl :: of_string "references".
Definition bibliography_marker : str := nl :: of_string "bibliography".

(** [(?<!in\s)abstract] *)
Definition abstract_re (before after : str) : bool :=
  negb (match before with
        | s :: 110%N :: 105%N :: _ => isspace s
        | _ => false
        end)
  && starts_with (of_string "abstract") after.

(** [introduction|keywords|\n1\.] *)
Definition abstract_end_re : str -> str -> bool :=
  literals [of_string "introduction"; of_string "keywords"; nl :: of_string "1."].

(** [introduction] *)
Definition introduction_re : str -> str -> bool :=
  literals [of_string "introduction"].

(** [methods|related work|background|\n2\.] *)
Definition intro_end_re : str -> str -> bool :=
  literals [of_string "methods"; of_string "related work";
            of_string "background"; nl :: of_string "2."].

Record Texts := mkTexts {
  best_text : option str;
  full_text : option str
}.

Definition Document := option (list str).

Definition read_pages (pages : list str) : str :=
  fold_left (fun acc page => (acc ++ page ++ [nl])%list) pages [].

Section Table.

Variable table : str -> N -> str -> N.

Definition clean_full_text (text : str) : str :=
  let text_lower := lower table text in
  let ref_pos := rfind text_lower references_marker in
  let bib_pos := rfind text_lower bibliography_marker in
  let split_pos := Z.max ref_pos bib_pos in
  if negb (split_pos =? -1)%Z then slice_to text split_pos
  else text.

Definition abstract_part (full_text full_text_lower : str) : str :=
  match re_search abstract_re full_text_lower with
  | Some abstract_start =>
      match re_search abstract_end_re (skipn abstract_start full_text_lower) with
      | Some e =>
          let abstract_end := abstract_start + e in
          slice full_text abstract_start abstract_end
      | None =>
          join [32%N] (firstn 500 (split (skipn abstract_start full_text)))
      end
  | None => []
  end.

Definition intro_part (full_text full_text_lower : str) : str :=
  match re_search introduction_re full_text_lower with
  | Some intro_start =>
      match re_search intro_end_re (skipn intro_start full_text_lower) with
      | Some e =>
          let intro_end := intro_start + e in
          nl :: slice full_text intro_start intro_end
      | None =>
          nl :: join [32%N] (firstn 1000 (split (skipn intro_start full_text)))
      end
  | None => []
  end.

Definition abstract_intro_text (full_text : str) : str :=
  let full_text_lower := lower table full_text in
  (abstract_part full_text full_text_lower
   ++ intro_part full_text full_text_lower)%list.

Definition extract_multivector_text (doc : Document) : Texts :=
  match doc with
  | None => mkTexts None None
  | Some pages =>
      let full_text := read_pages pages in
      if negb (truthy (strip full_text)) then mkTexts None None
      else
        let cleaned_full_text := clean_full_text full_text in
        let best_text := abstract_intro_text full_text in
        let best_text :=
          if List.length (split best_text) <? 100 then None else Some best_text in
        mkTexts best_text (Some cleaned_full_text)
  end.

End Table.

End ParsePdfUnicode.

(** ** Vocabulary of the statements on all code points *)

Module VocabularyUnicode.

Import PyUnicode ParsePdfUnicode.

(** [sub] occurs in [s] at index [i]. *)
Definition occurs_at (sub s : str) (i : nat) : Prop :=
  i <= List.length s /\ starts_with sub (skipn i s) = true.

(** The text has no U+0130, so that lower-casing it replaces each
    character by one character. *)
Definition dotless (s : str) : bool :=
  forallb (fun c => negb (N.eqb c dotted_I)) s.

(** The text from index [i] on, lower-cased where it stands in [s]. *)
Definition lower_tail (table : str -> N -> str -> N) (s : str) (i : nat) : str :=
  lower_from table (rev (firstn i s)) (skipn i s).

(** The marker of the code at index [i] of the text itself: the newline at
    [i] is followed, in any letter case, by "references" or
    "bibliography". *)
Definition marker_at (table : str -> N -> str -> N) (s : str) (i : nat) : Prop :=
  i <= List.length s
  /\ (starts_with references_marker (lower_tail table s i) = true
      \/ starts_with bibliography_marker (lower_tail table s i) = true).

(** The marker at index [i] of [s.lower()]. *)
Definition lower_marker_at (table : str -> N -> str -> N) (s : str) (i : nat)
  : Prop :=
  occurs_at references_marker (lower table s) i
  \/ occurs_at bibliography_marker (lower table s) i.

Fixpoint all_space (s : str) : bool :=
  match s with
  | [] => true
  | c :: t => isspace c && all_space t
  end.

(** A table that lowers A-Z and the capitals of Latin-1 and leaves every
    other code point as it is: Unicode's table on the code points below
    256. *)
Definition latin1_table (_ : str) (c : N) (_ : str) : N :=
  if ((65 <=? c) && (c <=? 90))%N
     || ((192 <=? c) && (c <=? 222) && negb (c =? 215))%N
  then (c + 32)%N else c.

(** A table agrees with Unicode's on the code points below 256. *)
Definition latin1_agrees (table : str -> N -> str -> N) : Prop :=
  forall before c after, (c < 256)%N ->
    table before c after = latin1_table before c after.

(** Sample texts: a reference list after a body, and the same after a
    character whose lower case is longer. *)
Definition body_then_references : str :=
  of_string "Body" ++ nl :: of_string "References" ++ nl :: of_string "[1] A".

Definition dotted_then_references : str :=
  dotted_I :: nl :: of_string "References x".

(** A heading in the words of the specification: "references" or
    "bibliography", in any letter case, at the start of a line, that is at
    the start of the text or right after a newline; [i] is the index of the
    first letter of the word. *)
Definition line_start (text : str) (i : nat) : bool :=
  match i with
  | 0 => true
  | S k => match nth_error text k with
           | Some c => N.eqb c nl
           | None => false
           end
  end.

Definition line_initial_heading (table : str -> N -> str -> N) (text : str)
    (i : nat) : bool :=
  line_start text i
  && (i <? List.length text)
  && (starts_with (of_string "references") (lower_tail table text i)
      || starts_with (of_string "bibliography") (lower_tail table text i)).

(** A one-page document whose first line is the heading of its reference
    list. *)
Definition heading_first : list str :=
  [of_string "References" ++ nl :: of_string "[1] A. Author. A title."].

(** The pattern [p] matches in [s] at index [j]. *)
Definition matches_at (p : str -> str -> bool) (s : str) (j : nat) : bool :=
  p (rev (firstn j s)) (skipn j s).

(** The characters [s[a:a+e]] in the lower case they have in [s.lower()]. *)
Definition lower_slice (table : str -> N -> str -> N) (s : str) (a e : nat)
  : str :=
  firstn e (lower_tail table s a).

(** The literals that end the abstract and the introduction. *)
Definition abstract_end_words : list str :=
  [of_string "introduction"; of_string "keywords"; nl :: of_string "1."].

Definition intro_end_words : list str :=
  [of_string "methods"; of_string "related work"; of_string "background";
   nl :: of_string "2."].

(** [word] occurs in [s] at index [j] and ends within [s]. *)
Definition occurs_within (word s : str) (j : nat) : bool :=
  (j + List.length word <=? List.length s) && starts_with word (skipn j s).

(** A short paper with all four section markers. *)
Definition short_paper : str :=
  of_string "A Title" ++ nl :: of_string "Abstract We study graphs."
  ++ nl :: of_string "Keywords: graphs"
  ++ nl :: of_string "1. Introduction We begin here."
  ++ nl :: of_string "2. Methods We count.".

(** The same after nine U+0130: every index found in the lower-cased text
    is nine characters late in the text. *)
Definition dotted_paper : str :=
  repeat dotted_I 9 ++ of_string " abstract w keywords x".

End VocabularyUnicode.

(** ** Facts about src/parse_pdf.py *)

Module ParsePdfFacts.

Import PyStr ParsePdf Vocabulary.
Local Open Scope string_scope.
Local Open Scope nat_scope.

(** *** Slices *)

Lemma take_drop (n : nat) (s : string) : take n s ++ drop n s = s.
Proof.
  revert s; induction n as [|n IH]; intros [|c t]; simpl; try reflexivity.
  now rewrite IH.
Qed.

Lemma length_lower (s : string) : length (lower s) = length s.
Proof. induction s; simpl; congruence. Qed.

Lemma occurs_at_cons (sub : string) (c : ascii) (t : string) (i : nat) :
  occurs_at sub (String c t) (S i) <-> occurs_at sub t i.
Proof. unfold occurs_at; simpl; split; intros [H1 H2]; split; auto; lia. Qed.

(** *** [rfind] returns the last occurrence *)

Lemma rfind_spec (sub s : string) :
  (rfind s sub = (-1)%Z /\ forall i, ~ occurs_at sub s i)
  \/ (exists i, rfind s sub = Z.of_nat i /\ occurs_at sub s i
                /\ forall j, occurs_at sub s j -> j <= i).
Proof.
  induction s as [|c t IH]; cbn [rfind].
  - destruct (prefix sub "") eqn:E.
    + right; exists 0. split; [reflexivity|]. split.
      * split; [simpl; lia | exact E].
      * intros j [Hj _]; simpl in Hj; lia.
    + left; split; [reflexivity|].
      intros i [Hi Hp]; simpl in Hi.
      assert (i = 0) by lia; subst; cbn [drop] in Hp; congruence.
  - destruct IH as [[Hr Hno] | [i [Hr [Hocc Hmax]]]].
    + rewrite Hr; cbn [Z.leb Z.compare].
      destruct (prefix sub (String c t)) eqn:E.
      * right; exists 0. split; [reflexivity|]. split.
        -- split; [simpl; lia | exact E].
        -- intros [|j] Hj; [lia|].
           apply occurs_at_cons in Hj; now apply Hno in Hj.
      * left; split; [reflexivity|].
        intros [|j] Hj.
        -- destruct Hj as [_ Hp]; cbn [drop] in Hp; congruence.
        -- apply occurs_at_cons in Hj; now apply Hno in Hj.
    + rewrite Hr.
      destruct (0 <=? Z.of_nat i)%Z eqn:E; [|apply Z.leb_gt in E; lia].
      right; exists (S i). split; [lia|]. split.
      * now apply occurs_at_cons.
      * intros [|j] Hj; [lia|].
        apply occurs_at_cons in Hj; apply Hmax in Hj; lia.
Qed.

Lemma slice_to_nat (s : string) (i : nat) : slice_to s (Z.of_nat i) = take i s.
Proof.
  unfold slice_to.
  destruct (Z.of_nat i <? 0)%Z eqn:E; [apply Z.ltb_lt in E; lia|].
  now rewrite Nat2Z.id.
Qed.

(** What [clean_full_text] returns, in terms of the markers of the text. *)
Lemma clean_full_text_spec (text : string) :
  (exists i, marker_at text i /\ (forall j, marker_at text j -> j <= i)
             /\ clean_full_text text = take i text)
  \/ ((forall i, ~ marker_at text i) /\ clean_full_text text = text).
Proof.
  unfold clean_full_text, marker_at.
  destruct (rfind_spec references_marker (lower text))
    as [[Hr Hrno] | [i [Hr [Hri Hrmax]]]];
  destruct (rfind_spec bibliography_marker (lower text))
    as [[Hb Hbno] | [k [Hb [Hbk Hbmax]]]]; rewrite Hr, Hb.
  - right; split; [|reflexivity].
    intros i [H|H]; [now apply Hrno in H | now apply Hbno in H].
  - left; exists k.
    replace (Z.max (-1) (Z.of_nat k)) with (Z.of_nat k) by lia.
    destruct (Z.of_nat k =? -1)%Z eqn:E; [apply Z.eqb_eq in E; lia|]; simpl.
    repeat split; auto.
    + intros j [H|H]; [now apply Hrno in H | now apply Hbmax].
    + apply slice_to_nat.
  - left; exists i.
    replace (Z.max (Z.of_nat i) (-1)) with (Z.of_nat i) by lia.
    destruct (Z.of_nat i =? -1)%Z eqn:E; [apply Z.eqb_eq in E; lia|]; simpl.
    repeat split; auto.
    + intros j [H|H]; [now apply Hrmax | now apply Hbno in H].
    + apply slice_to_nat.
  - left; exists (Nat.max i k).
    replace (Z.max (Z.of_nat i) (Z.of_nat k)) with (Z.of_nat (Nat.max i k)) by lia.
    destruct (Z.of_nat (Nat.max i k) =? -1)%Z eqn:E; [apply Z.eqb_eq in E; lia|]; simpl.
    repeat split.
    + destruct (Nat.max_spec i k) as [[_ ->] | [_ ->]]; auto.
    + intros j [H|H]; [apply Hrmax in H | apply Hbmax in H]; lia.
    + apply slice_to_nat.
Qed.

(** *** White space *)

Lemma lstrip_all_space (s : string) : all_space s = true -> lstrip s = "".
Proof.
  induction s as [|c t IH]; simpl; [reflexivity|].
  intros H; apply andb_true_iff in H as [Hc Ht]; rewrite Hc; auto.
Qed.

Lemma rstrip_empty (s : string) : rstrip s = "" -> all_space s = true.
Proof.
  induction s as [|c t IH]; simpl; [reflexivity|].
  destruct (rstrip t) eqn:E; [|discriminate].
  destruct (isspace c); [auto | discriminate].
Qed.

Lemma lstrip_not_space (s : string) :
  match lstrip s with
  | EmptyString => True
  | String c _ => isspace c = false
  end.
Proof.
  induction s as [|c t IH]; simpl; [exact I|].
  destruct (isspace c) eqn:E; [exact IH | exact E].
Qed.

Lemma strip_empty_iff (s : string) : strip s = "" <-> all_space s = true.
Proof.
  unfold strip; split; intros H.
  - apply rstrip_empty in H.
    pose proof (lstrip_not_space s) as Hl.
    destruct (lstrip s) as [|c t] eqn:E.
    + clear H Hl; induction s as [|c t IH]; simpl in *; [reflexivity|].
      destruct (isspace c); [auto | discriminate].
    + simpl in H; rewrite Hl in H; discriminate.
  - now rewrite lstrip_all_space.
Qed.

Lemma isspace_lower_char (c : ascii) : isspace c = true -> lower_char c = c.
Proof.
  destruct c as [[] [] [] [] [] [] [] []]; vm_compute; congruence.
Qed.

Lemma all_space_lower (s : string) : all_space s = true -> lower s = s.
Proof.
  induction s as [|c t IH]; simpl; [reflexivity|].
  intros H; apply andb_true_iff in H as [Hc Ht].
  now rewrite IH, isspace_lower_char.
Qed.

(** A pattern that starts with a visible character finds nothing in white
    space. *)
Lemma search_from_all_space (p : string -> string -> bool) :
  starts_visible p ->
  forall after before i, all_space after = true ->
    search_from p before after i = None.
Proof.
  intros Hp after; induction after as [|c t IH]; intros before i Hs; simpl.
  - destruct (p before "") eqn:E; [apply Hp in E; contradiction | reflexivity].
  - destruct (p before (String c t)) eqn:E.
    + apply Hp in E. simpl in Hs. rewrite E in Hs. discriminate.
    + simpl in Hs; apply andb_true_iff in Hs as [_ Hs]; auto.
Qed.

Lemma prefix_head (a : ascii) (p after : string) :
  prefix (String a p) after = true -> exists t, after = String a t.
Proof.
  destruct after as [|c t]; simpl; [discriminate|].
  destruct (ascii_dec a c) as [<-|]; [eauto | discriminate].
Qed.

Lemma abstract_re_visible : starts_visible abstract_re.
Proof.
  intros before after H; unfold abstract_re in H.
  apply andb_true_iff in H as [_ H].
  apply prefix_head in H as [t ->]; reflexivity.
Qed.

Lemma introduction_re_visible : starts_visible introduction_re.
Proof.
  intros before after H; unfold introduction_re, literals, existsb in H.
  rewrite orb_false_r in H.
  apply prefix_head in H as [t ->]; reflexivity.
Qed.

Lemma abstract_intro_text_no_marker (text : string) :
  re_search abstract_re (lower text) = None ->
  re_search introduction_re (lower text) = None ->
  abstract_intro_text text = "".
Proof.
  intros Ha Hi; unfold abstract_intro_text, abstract_part, intro_part.
  now rewrite Ha, Hi.
Qed.

Lemma abstract_intro_text_all_space (text : string) :
  all_space text = true -> abstract_intro_text text = "".
Proof.
  intros H; apply abstract_intro_text_no_marker;
    rewrite (all_space_lower _ H); unfold re_search;
    apply search_from_all_space; auto using abstract_re_visible, introduction_re_visible.
Qed.

Lemma truthy_false (s : string) : truthy s = false <-> s = "".
Proof. destruct s; simpl; split; congruence. Qed.

(** The [best_text] field in terms of the token count. *)
Lemma best_text_spec (pages : list string) :
  best_text (extract_multivector_text (Some pages)) =
  if tokens (abstract_intro_text (read_pages pages)) <? 100 then None
  else Some (abstract_intro_text (read_pages pages)).
Proof.
  unfold extract_multivector_text, tokens.
  destruct (truthy (strip (read_pages pages))) eqn:E; simpl; [reflexivity|].
  apply truthy_false, strip_empty_iff in E.
  now rewrite (abstract_intro_text_all_space _ E).
Qed.

Lemma full_text_spec (pages : list string) :
  all_space (read_pages pages) = false ->
  full_text (extract_multivector_text (Some pages))
  = Some (clean_full_text (read_pages pages)).
Proof.
  intros H; unfold extract_multivector_text.
  destruct (truthy (strip (read_pages pages))) eqn:E; simpl; [reflexivity|].
  apply truthy_false, strip_empty_iff in E; congruence.
Qed.

(** The text of a document whose first line is the heading "References"
    has a line-initial heading at index 0, and no other; the text cut there
    is empty, yet the full excerpt is the whole text, heading included. *)
Lemma first_line_heading_is_kept :
  let raw := read_pages heading_first in
  line_initial_heading raw 0 = true
  /\ (forall j, line_initial_heading raw j = true -> j <= 0)
  /\ clean_full_text raw = raw
  /\ full_text (extract_multivector_text (Some heading_first)) = Some raw
  /\ clean_full_text raw <> take 0 raw.
Proof.
  cbv zeta; split; [reflexivity|]. split.
  - intros j Hj.
    do 40 (destruct j as [|j]; [first [lia | vm_compute in Hj; discriminate]|]).
    vm_compute in Hj; discriminate.
  - split; [reflexivity|]. split; [reflexivity | vm_compute; discriminate].
Qed.

(** C6.  The focused excerpt ([best_text]) of a document is absent exactly
    when the concatenated abstract and introduction text has fewer than 100
    whitespace-delimited tokens: with 99 tokens it is absent, with 100 it is
    that text; and a text in which neither "abstract" nor "introduction" is
    found has no focused excerpt. *)
Theorem best_text_absent_iff_fewer_than_100_tokens (pages : list string) :
  let raw := read_pages pages in
  let focused := best_text (extract_multivector_text (Some pages)) in
  (focused = None <-> tokens (abstract_intro_text raw) < 100)
  /\ (tokens (abstract_intro_text raw) = 99 -> focused = None)
  /\ (tokens (abstract_intro_text raw) = 100 ->
        focused = Some (abstract_intro_text raw))
  /\ (re_search abstract_re (lower raw) = None ->
        re_search introduction_re (lower raw) = None ->
        focused = None).
Proof.
  intros raw focused; unfold focused; rewrite best_text_spec; fold raw.
  repeat split.
  - destruct (tokens (abstract_intro_text raw) <? 100) eqn:E;
      [intros _; now apply Nat.ltb_lt | discriminate].
  - intros H; apply Nat.ltb_lt in H; now rewrite H.
  - intros ->; reflexivity.
  - intros ->; reflexivity.
  - intros Ha Hi; now rewrite (abstract_intro_text_no_marker _ Ha Hi).
Qed.

(** The boundary on documents: "abstract" followed by 98, then 99, words. *)
Example best_text_99_tokens_absent :
  tokens (abstract_intro_text (read_pages ["abstract" ++ words 98])) = 99
  /\ best_text (extract_multivector_text (Some ["abstract" ++ words 98])) = None.
Proof. split; vm_compute; reflexivity. Qed.

Example best_text_100_tokens_present :
  tokens (abstract_intro_text (read_pages ["abstract" ++ words 99])) = 100
  /\ best_text (extract_multivector_text (Some ["abstract" ++ words 99]))
     = Some (join " " (split ("abstract" ++ words 99))).
Proof. split; vm_compute; reflexivity. Qed.

End ParsePdfFacts.

(** ** Facts about src/embed.py *)

Module EmbedFacts.

Import PyStr ParsePdf Database Embed Vocabulary ParsePdfFacts.

Section BuildFacts.

Variable encode : string -> vector.

Lemma append_loop (pdf_files : list PdfFile) (done : list PaperRecord) :
  fold_left (fun database_records pdf_path =>
               database_records ++ [process_pdf encode pdf_path])
            pdf_files done
  = done ++ map (process_pdf encode) pdf_files.
Proof.
  revert done; induction pdf_files as [|f rest IH]; intros done; simpl.
  - now rewrite app_nil_r.
  - now rewrite IH, <- app_assoc.
Qed.

Lemma build_multivector_database_map (pdf_files : list PdfFile) :
  pdf_files <> [] ->
  build_multivector_database encode pdf_files
  = Some (map (process_pdf encode) pdf_files).
Proof.
  destruct pdf_files as [|f rest]; [congruence|]; intros _.
  unfold build_multivector_database; now rewrite append_loop.
Qed.

Lemma build_multivector_database_nonempty (pdf_files : list PdfFile)
    (database : list PaperRecord) :
  build_multivector_database encode pdf_files = Some database -> database <> [].
Proof.
  destruct pdf_files as [|f rest]; [discriminate|].
  rewrite build_multivector_database_map by discriminate.
  intros [= <-]; discriminate.
Qed.

Lemma process_pdf_unreadable (pdf_path : PdfFile) :
  contents pdf_path = None ->
  process_pdf encode pdf_path
  = mkRecord (parent_name pdf_path)
             (parent_name pdf_path ++ "__" ++ stem pdf_path ++ ".pdf")%string
             None None.
Proof. intros H; unfold process_pdf; now rewrite H. Qed.

(** The full text is embedded whenever cleaning leaves something of it. *)
Lemma full_text_embedding_present (pdf_path : PdfFile) (pages : list string) :
  contents pdf_path = Some pages ->
  all_space (read_pages pages) = false ->
  clean_full_text (read_pages pages) <> EmptyString ->
  full_text_embedding (process_pdf encode pdf_path)
  = Some (encode (clean_full_text (read_pages pages))).
Proof.
  intros Hc Hs Hne; unfold process_pdf; rewrite Hc; cbv zeta.
  cbn [full_text_embedding].
  rewrite (full_text_spec pages Hs); cbn [embed_text].
  destruct (clean_full_text (read_pages pages)); [congruence | reflexivity].
Qed.

End BuildFacts.

(** C7.  For every corpus, the records the builder writes are one per paper
    in the order of the enumeration, whatever the provider does on each
    paper: a paper whose text cannot be read still gets its record, with
    both embeddings absent, and every author has as many records as papers.
    (A corpus without any paper has no record to write, and nothing is
    written.) *)
Theorem build_keeps_one_record_per_paper (encode : string -> vector)
    (pdf_files : list PdfFile) :
  let database := records_written (build_multivector_database encode pdf_files) in
  (pdf_files <> [] ->
   build_multivector_database encode pdf_files = Some database)
  /\ (pdf_files = [] -> build_multivector_database encode pdf_files = None)
  /\ List.length database = List.length pdf_files
  /\ (forall a, count_occ string_dec (map author database) a
                = count_occ string_dec (map parent_name pdf_files) a)
  /\ (forall i f, nth_error pdf_files i = Some f ->
        exists r, nth_error database i = Some r
                  /\ author r = parent_name f
                  /\ (contents f = None ->
                      best_text_embedding r = None
                      /\ full_text_embedding r = None)).
Proof.
  destruct pdf_files as [|f0 rest]; cbv zeta.
  - repeat split; try reflexivity; try congruence.
    intros [|i] f; discriminate.
  - rewrite build_multivector_database_map by discriminate.
    cbn [records_written].
    split; [reflexivity|]. split; [discriminate|].
    split; [apply length_map|].
    split.
    + intros a; now rewrite map_map.
    + intros i f Hf; exists (process_pdf encode f).
      split; [now apply map_nth_error|].
      split; [reflexivity|].
      intros Hc; now rewrite (process_pdf_unreadable encode f Hc).
Qed.

(** The sample corpus: the unreadable paper of alice is recorded. *)
Example sample_corpus_records :
  build_multivector_database (fun _ => [1%R; 0%R]) sample_corpus
  = Some [mkRecord "alice" "alice__broken.pdf" None None;
          mkRecord "bob" "bob__thesis.pdf" (Some [1%R; 0%R]) (Some [1%R; 0%R])].
Proof. vm_compute; reflexivity. Qed.

(** C3, at the failing input.  The text of [references_only] is not white
    space, yet its record has neither embedding: the cut of
    [clean_full_text] falls at index 0 and leaves the empty string, which
    is not embedded, and the text is too short for a focused excerpt. *)
Theorem references_only_record_has_no_embedding (encode : string -> vector) :
  let raw :=
    read_pages [EmptyString;
                ("References" ++ String nl "[1] A. Author. A title.")%string] in
  contents references_only
    = Some [EmptyString;
            ("References" ++ String nl "[1] A. Author. A title.")%string]
  /\ all_space raw = false
  /\ strip raw <> EmptyString
  /\ extract_multivector_text (contents references_only)
     = mkTexts None (Some EmptyString)
  /\ best_text_embedding (process_pdf encode references_only) = None
  /\ full_text_embedding (process_pdf encode references_only) = None.
Proof.
  cbv zeta; repeat split; try reflexivity.
  vm_compute; discriminate.
Qed.

End EmbedFacts.

(** ** Facts about the libraries and the steps of src/similarity.py *)

Module SimilarityFacts.

Import Database Similarity Vocabulary.
Local Open Scope R_scope.

(** *** numpy and scikit-learn *)

Lemma dot_scaled_zeros (u : vector) (n : nat) (c : R) :
  dot u (map (fun x => x / c) (repeat 0 n)) = 0.
Proof.
  unfold dot; revert u; induction n as [|n IH]; intros [|x u]; simpl; auto.
  rewrite IH; unfold Rdiv; ring.
Qed.

Lemma cosine_zeros (q : vector) (d : nat) : cosine q (np_zeros d) = 0.
Proof. unfold cosine, np_zeros; unfold normalize at 2; apply dot_scaled_zeros. Qed.

Lemma eps_pos : 0 < eps.
Proof. unfold eps; apply Rinv_0_lt_compat, pow_lt; lra. Qed.

(** No normalisation divides by zero. *)
Lemma handle_zeros_in_scale_pos (scale : R) : 0 < handle_zeros_in_scale scale.
Proof.
  unfold handle_zeros_in_scale; pose proof eps_pos.
  destruct (Rlt_dec scale (10 * eps)); lra.
Qed.

Lemma dot_zeros (n : nat) : dot (np_zeros n) (np_zeros n) = 0.
Proof.
  unfold dot, np_zeros; induction n as [|n IH]; simpl; [reflexivity|].
  rewrite IH; ring.
Qed.

Lemma handle_zeros_in_scale_zeros (n : nat) :
  handle_zeros_in_scale (row_norm (np_zeros n)) = 1.
Proof.
  unfold row_norm; rewrite dot_zeros, sqrt_0.
  unfold handle_zeros_in_scale; pose proof eps_pos.
  destruct (Rlt_dec 0 (10 * eps)); [reflexivity | lra].
Qed.

Lemma normalize_zeros (n : nat) : normalize (np_zeros n) = np_zeros n.
Proof.
  unfold normalize; rewrite handle_zeros_in_scale_zeros.
  unfold np_zeros; induction n as [|n IH]; simpl; [reflexivity|].
  rewrite IH; f_equal; field.
Qed.

Lemma forallb_length_eq (rows : list vector) (d : nat) :
  forallb (fun r => Nat.eqb (List.length r) d) rows = true
  <-> Forall (fun r => List.length r = d) rows.
Proof.
  rewrite forallb_forall, Forall_forall; split; intros H r Hr;
    [apply Nat.eqb_eq | apply Nat.eqb_eq]; auto.
Qed.

Lemma np_array_uniform (rows : list vector) (d : nat) :
  rows <> [] -> Forall (fun r => List.length r = d) rows ->
  np_array rows = Ok (Arr2 rows).
Proof.
  destruct rows as [|r rest]; [congruence|]; intros _ H; simpl.
  inversion H as [|? ? Hr Hrest]; subst.
  now apply forallb_length_eq in Hrest as ->.
Qed.

Lemma np_array_inv (rows : list vector) (M : ndarray) :
  np_array rows = Ok M ->
  (rows = [] /\ M = Arr1 []) \/ (rows <> [] /\ M = Arr2 rows).
Proof.
  destruct rows as [|r rest]; simpl.
  - intros [= <-]; auto.
  - destruct (forallb (fun r' => Nat.eqb (List.length r') (List.length r)) rest);
      [intros [= <-]; right; split; congruence | discriminate].
Qed.

Lemma cosine_similarity_inv (x : vector) (Y : ndarray) (scores : list R) :
  cosine_similarity x Y = Ok scores ->
  exists rows, Y = Arr2 rows /\ scores = map (cosine x) rows.
Proof.
  destruct Y as [v|rows]; simpl; [discriminate|].
  destruct (Nat.eqb (List.length x) 0); [discriminate|].
  destruct (forallb (fun y => Nat.eqb (List.length y) (List.length x)) rows);
    [intros [= <-]; eauto | discriminate].
Qed.

Lemma cosine_similarity_ok (x : vector) (rows : list vector) :
  List.length x <> 0%nat ->
  Forall (fun y => List.length y = List.length x) rows ->
  cosine_similarity x (Arr2 rows) = Ok (map (cosine x) rows).
Proof.
  intros Hx Hrows; simpl.
  apply Nat.eqb_neq in Hx as ->.
  now apply forallb_length_eq in Hrows as ->.
Qed.

Lemma length_np_maximum (a b : list R) :
  List.length a = List.length b ->
  List.length (np_maximum a b) = List.length a.
Proof.
  intros H; unfold np_maximum; rewrite length_map, length_combine; lia.
Qed.

Lemma nth_np_maximum (a b : list R) (i : nat) :
  List.length a = List.length b ->
  nth i (np_maximum a b) 0 = Rmax (nth i a 0) (nth i b 0).
Proof.
  unfold np_maximum; revert b i; induction a as [|x a IH]; intros [|y b] [|i] H;
    simpl in *; try discriminate; auto using Rmax_left, Rle_refl.
  - now rewrite Rmax_left by apply Rle_refl.
  - now rewrite Rmax_left by apply Rle_refl.
Qed.

(** *** Steps 1 to 3 *)

Lemma paper_scores_empty (q_best q_full : vector) (d : nat) :
  paper_scores q_best q_full d [] = ValueError.
Proof. reflexivity. Qed.

Lemma paper_scores_inv (q_best q_full : vector) (d : nat)
    (database : list PaperRecord) (A B F : list R) :
  paper_scores q_best q_full d database = Ok (A, B, F) ->
  database <> []
  /\ A = map (fun r => cosine q_best (embedding_or_zeros d (best_text_embedding r)))
             database
  /\ B = map (fun r => cosine q_full (embedding_or_zeros d (full_text_embedding r)))
             database
  /\ F = np_maximum A B.
Proof.
  unfold paper_scores; cbv zeta.
  destruct (np_array (map (fun record => embedding_or_zeros d (best_text_embedding record)) database))
    as [MA|] eqn:EA; [|discriminate].
  cbn [bind].
  destruct (np_array (map (fun record => embedding_or_zeros d (full_text_embedding record)) database))
    as [MB|] eqn:EB; [|discriminate].
  cbn [bind].
  destruct (cosine_similarity q_best MA) as [sA|] eqn:ESA; [|discriminate].
  cbn [bind].
  destruct (cosine_similarity q_full MB) as [sB|] eqn:ESB; [|discriminate].
  cbn [bind]. intros [= <- <- <-].
  apply cosine_similarity_inv in ESA as [rA [-> ->]].
  apply cosine_similarity_inv in ESB as [rB [-> ->]].
  apply np_array_inv in EA as [[_ [=]] | [Hne [= ->]]].
  apply np_array_inv in EB as [[_ [=]] | [_ [= ->]]].
  rewrite !map_map. repeat split; auto.
  intros ->; now apply Hne.
Qed.

Lemma has_dim_embedding_or_zeros (d : nat) (e : option vector) :
  has_dim d e = true -> List.length (embedding_or_zeros d e) = d.
Proof.
  destruct e as [v|]; simpl; [apply Nat.eqb_eq|].
  intros _; apply repeat_length.
Qed.

Lemma paper_scores_ok (q_best q_full : vector) (d : nat)
    (database : list PaperRecord) :
  database <> [] -> well_formed q_best q_full d database = true ->
  exists A B, paper_scores q_best q_full d database = Ok (A, B, np_maximum A B)
              /\ List.length A = List.length database
              /\ List.length B = List.length database.
Proof.
  intros Hne Hwf; unfold well_formed in Hwf.
  apply andb_true_iff in Hwf as [Hwf Hdb].
  apply andb_true_iff in Hwf as [Hwf Hqf].
  apply andb_true_iff in Hwf as [Hd Hqb].
  apply Nat.ltb_lt in Hd. apply Nat.eqb_eq in Hqb, Hqf.
  rewrite forallb_forall in Hdb.
  assert (HA : Forall (fun y => List.length y = d)
                 (map (fun r => embedding_or_zeros d (best_text_embedding r)) database)).
  { apply Forall_map, Forall_forall; intros r Hr.
    apply Hdb, andb_true_iff in Hr as [Hr _].
    now apply has_dim_embedding_or_zeros. }
  assert (HB : Forall (fun y => List.length y = d)
                 (map (fun r => embedding_or_zeros d (full_text_embedding r)) database)).
  { apply Forall_map, Forall_forall; intros r Hr.
    apply Hdb, andb_true_iff in Hr as [_ Hr].
    now apply has_dim_embedding_or_zeros. }
  unfold paper_scores; cbv zeta.
  rewrite (np_array_uniform _ d), (np_array_uniform _ d); auto;
    try (destruct database; [congruence | discriminate]).
  cbn [bind].
  rewrite !cosine_similarity_ok; try lia; try (rewrite ?Hqb, ?Hqf; assumption).
  cbn [bind].
  eexists _, _; split; [reflexivity|].
  now rewrite !length_map.
Qed.


(** *** pandas: groups and merge *)

Lemma insert_key_perm (a : string) (keys : list string) :
  Permutation (a :: keys) (insert_key a keys).
Proof.
  induction keys as [|b rest IH]; simpl; [apply Permutation_refl|].
  destruct (String.leb a b); [apply Permutation_refl|].
  eapply perm_trans; [apply perm_swap | now apply perm_skip].
Qed.

Lemma group_keys_perm (df : list PaperScore) :
  Permutation (group_keys df) (nodup string_dec (map df_author df)).
Proof.
  unfold group_keys.
  induction (nodup string_dec (map df_author df)) as [|a l IH]; simpl;
    [apply Permutation_refl|].
  eapply perm_trans; [apply Permutation_sym, insert_key_perm | now apply perm_skip].
Qed.

Lemma group_keys_NoDup (df : list PaperScore) : NoDup (group_keys df).
Proof.
  eapply Permutation_NoDup; [apply Permutation_sym, group_keys_perm|].
  apply NoDup_nodup.
Qed.

Section Merge.

Variables (f : string -> R * nat) (g : string -> R).

Lemma filter_key_absent (a : string) (keys : list string) :
  ~ In a keys ->
  filter (fun r => String.eqb (fst r) a) (map (fun k => (k, g k)) keys) = [].
Proof.
  induction keys as [|b rest IH]; simpl; [reflexivity|]; intros H.
  destruct (String.eqb_spec b a) as [->|_]; [exfalso; apply H; now left|].
  apply IH; intros Hin; apply H; now right.
Qed.

Lemma filter_key_unique (a : string) (keys : list string) :
  NoDup keys -> In a keys ->
  filter (fun r => String.eqb (fst r) a) (map (fun k => (k, g k)) keys)
  = [(a, g a)].
Proof.
  induction keys as [|b rest IH]; simpl; [contradiction|]; intros Hnd Hin.
  inversion Hnd as [|? ? Hb Hrest]; subst.
  destruct (String.eqb_spec b a) as [->|Hne].
  - now rewrite (filter_key_absent a rest Hb).
  - destruct Hin as [->|Hin]; [congruence | auto].
Qed.

(** Joining two tables that have the same keys, each once, pairs the rows
    of the same key. *)
Lemma merge_same_keys (keys : list string) :
  NoDup keys ->
  merge (map (fun k => (k, f k)) keys) (map (fun k => (k, g k)) keys)
  = map (fun k => mkAuthorScore k (fst (f k)) (snd (f k)) (g k)) keys.
Proof.
  intros Hnd; unfold merge.
  assert (H : forall part, incl part keys ->
    flat_map (fun l =>
      map (fun r => mkAuthorScore (fst l) (fst (snd l)) (snd (snd l)) (snd r))
          (filter (fun r => String.eqb (fst r) (fst l))
                  (map (fun k => (k, g k)) keys)))
      (map (fun k => (k, f k)) part)
    = map (fun k => mkAuthorScore k (fst (f k)) (snd (f k)) (g k)) part).
  { induction part as [|a part IH]; intros Hincl; simpl; [reflexivity|].
    rewrite (filter_key_unique a keys Hnd) by (apply Hincl; now left).
    simpl; f_equal; apply IH.
    intros x Hx; apply Hincl; now right. }
  apply H, incl_refl.
Qed.

End Merge.

Lemma data_frame_authors (database : list PaperRecord) (F : list R) :
  List.length F = List.length database ->
  map df_author (data_frame (map author database) (map paper database) F)
  = map author database.
Proof.
  revert F; induction database as [|r db IH]; intros [|s F] H; simpl in *;
    try discriminate; [reflexivity|].
  f_equal; apply IH; lia.
Qed.

Lemma group_scores_records (database : list PaperRecord) (F : list R) (a : string) :
  group_scores (data_frame (map author database) (map paper database) F) a
  = scores_of_author database F a.
Proof.
  unfold group_scores, scores_of_author.
  revert F; induction database as [|r db IH]; intros [|s F]; simpl; auto.
  destruct (String.eqb (author r) a); simpl; now rewrite IH.
Qed.

Lemma scores_of_author_nonempty (database : list PaperRecord) (F : list R)
    (a : string) :
  List.length F = List.length database -> In a (map author database) ->
  scores_of_author database F a <> [].
Proof.
  unfold scores_of_author.
  revert F; induction database as [|r db IH]; intros [|s F] H Hin; simpl in *;
    try discriminate; try contradiction.
  destruct (String.eqb_spec (author r) a) as [_|Hne]; simpl; [discriminate|].
  destruct Hin as [Hin|Hin]; [congruence|].
  apply IH; [lia | assumption].
Qed.

Lemma length_scores_of_author (database : list PaperRecord) (F : list R)
    (a : string) :
  List.length F = List.length database ->
  List.length (scores_of_author database F a)
  = count_occ string_dec (map author database) a.
Proof.
  unfold scores_of_author.
  revert F; induction database as [|r db IH]; intros [|s F] H; simpl in *;
    try discriminate; [reflexivity|].
  destruct (String.eqb_spec (author r) a) as [He|Hne];
    destruct (string_dec (author r) a) as [Hd|Hd]; try congruence; simpl;
    rewrite IH by lia; reflexivity.
Qed.

(** *** pandas: sort and head *)

Lemma insert_desc_perm (x : AuthorScore) (l : list AuthorScore) :
  Permutation (x :: l) (insert_desc x l).
Proof.
  induction l as [|y rest IH]; simpl; [apply Permutation_refl|].
  destruct (Rle_dec (row_max y) (row_max x)); [apply Permutation_refl|].
  eapply perm_trans; [apply perm_swap | now apply perm_skip].
Qed.

Lemma sort_values_max_perm (l : list AuthorScore) :
  Permutation l (sort_values_max l).
Proof.
  induction l as [|x l IH]; simpl; [apply Permutation_refl|].
  eapply perm_trans; [apply perm_skip, IH | apply insert_desc_perm].
Qed.

Lemma insert_desc_sorted (x : AuthorScore) (l : list AuthorScore) :
  max_descending l -> max_descending (insert_desc x l).
Proof.
  unfold max_descending; induction l as [|y rest IH]; intros Hs; simpl.
  - constructor; [constructor | constructor].
  - inversion Hs as [|? ? Hrest Hy]; subst.
    destruct (Rle_dec (row_max y) (row_max x)) as [Hle|Hgt].
    + constructor; [assumption|].
      constructor; [assumption|].
      eapply Forall_impl; [|exact Hy]; simpl; intros z Hz; lra.
    + constructor; [now apply IH|].
      eapply Permutation_Forall; [apply insert_desc_perm|].
      constructor; [lra | assumption].
Qed.

Lemma sort_values_max_sorted (l : list AuthorScore) :
  max_descending (sort_values_max l).
Proof.
  induction l as [|x l IH]; simpl; [constructor | now apply insert_desc_sorted].
Qed.

Lemma firstn_incl {A : Type} (n : nat) (l : list A) : incl (firstn n l) l.
Proof.
  revert l; induction n as [|n IH]; intros [|x l] y Hy; simpl in *;
    try contradiction.
  destruct Hy as [->|Hy]; [now left | right; now apply IH].
Qed.

Lemma firstn_max_descending (n : nat) (l : list AuthorScore) :
  max_descending l -> max_descending (firstn n l).
Proof.
  unfold max_descending; revert l; induction n as [|n IH]; intros [|x l] H;
    simpl; try constructor.
  - inversion H; auto.
  - inversion H as [|? ? _ Hx]; subst.
    rewrite Forall_forall in *; intros y Hy; now apply Hx, (firstn_incl n).
Qed.

Lemma head_incl {A : Type} (n : Z) (l : list A) : incl (head n l) l.
Proof. unfold head; destruct (n <? 0)%Z; apply firstn_incl. Qed.

Lemma head_positive {A : Type} (n : Z) (l : list A) :
  (0 <= n)%Z -> head n l = firstn (Z.to_nat n) l.
Proof.
  intros H; unfold head.
  destruct (n <? 0)%Z eqn:E; [apply Z.ltb_lt in E; lia | reflexivity].
Qed.

Lemma head_negative {A : Type} (n : Z) (l : list A) :
  (n < 0)%Z -> head n l = firstn (Z.to_nat (Z.of_nat (List.length l) + n)) l.
Proof. intros H; unfold head; apply Z.ltb_lt in H; now rewrite H. Qed.

(** *** Maximum and mean of a group *)

Lemma fold_left_Rmax_ge (l : list R) (x : R) :
  x <= fold_left Rmax l x /\ forall y, In y l -> y <= fold_left Rmax l x.
Proof.
  revert x; induction l as [|z l IH]; intros x; simpl.
  - split; [lra | contradiction].
  - destruct (IH (Rmax x z)) as [H1 H2].
    pose proof (Rmax_l x z); pose proof (Rmax_r x z).
    split; [lra|].
    intros y [<-|Hy]; [lra | auto].
Qed.

Lemma series_max_ge (l : list R) (y : R) : In y l -> y <= series_max l.
Proof.
  destruct l as [|x l]; simpl; [contradiction|].
  destruct (fold_left_Rmax_ge l x) as [H1 H2].
  intros [<-|Hy]; auto.
Qed.

Lemma series_sum_le (l : list R) (M : R) :
  (forall y, In y l -> y <= M) -> series_sum l <= INR (List.length l) * M.
Proof.
  induction l as [|x l IH]; intros H.
  - simpl; lra.
  - change (series_sum (x :: l)) with (x + series_sum l).
    change (List.length (x :: l)) with (S (List.length l)).
    rewrite S_INR.
    assert (x <= M) by (apply H; now left).
    assert (series_sum l <= INR (List.length l) * M)
      by (apply IH; intros y Hy; apply H; now right).
    lra.
Qed.

Lemma series_mean_le_max (l : list R) :
  l <> [] -> series_mean l <= series_max l.
Proof.
  intros Hne; unfold series_mean.
  assert (Hn : 0 < INR (List.length l)).
  { apply lt_0_INR; destruct l; [congruence | simpl; lia]. }
  pose proof (series_sum_le l (series_max l) (series_max_ge l)) as Hs.
  apply Rmult_le_reg_l with (r := INR (List.length l)); [assumption|].
  unfold Rdiv.
  replace (INR (List.length l) * (series_sum l * / INR (List.length l)))
    with (series_sum l) by (field; lra).
  exact Hs.
Qed.

(** *** The table of all authors *)

(** The row of one author. *)
Lemma author_table_unsorted (database : list PaperRecord) (F : list R) :
  let df := data_frame (map author database) (map paper database) F in
  author_table database F
  = sort_values_max
      (map (fun a => mkAuthorScore a (series_mean (scores_of_author database F a))
                       (List.length (scores_of_author database F a))
                       (series_max (scores_of_author database F a)))
           (group_keys df)).
Proof.
  intros df; unfold author_table; fold df; cbv zeta.
  unfold agg_mean_count, agg_max.
  rewrite (merge_same_keys
             (fun a => (series_mean (group_scores df a), List.length (group_scores df a)))
             (fun a => series_max (group_scores df a))
             (group_keys df) (group_keys_NoDup df)).
  f_equal; apply map_ext; intros a; simpl.
  unfold df; now rewrite group_scores_records.
Qed.

Lemma author_table_spec (database : list PaperRecord) (F : list R) :
  List.length F = List.length database ->
  Permutation (map row_author (author_table database F)) (distinct_authors database)
  /\ max_descending (author_table database F)
  /\ Forall (fun row =>
        let g := scores_of_author database F (row_author row) in
        g <> [] /\ row_mean row = series_mean g
        /\ row_count row = List.length g /\ row_max row = series_max g)
      (author_table database F).
Proof.
  intros Hlen; rewrite author_table_unsorted.
  set (df := data_frame (map author database) (map paper database) F).
  set (row := fun a => mkAuthorScore a _ _ _).
  assert (Hkeys : Permutation (group_keys df) (distinct_authors database)).
  { unfold distinct_authors; rewrite <- (data_frame_authors database F Hlen).
    apply group_keys_perm. }
  split; [|split].
  - eapply perm_trans;
      [apply Permutation_map, Permutation_sym, sort_values_max_perm|].
    rewrite map_map; simpl; now rewrite map_id.
  - apply sort_values_max_sorted.
  - eapply Permutation_Forall; [apply sort_values_max_perm|].
    apply Forall_map, Forall_forall; intros a Ha; simpl.
    repeat split.
    apply scores_of_author_nonempty; [assumption|].
    eapply Permutation_in in Ha; [|exact Hkeys].
    unfold distinct_authors in Ha; now apply nodup_In in Ha.
Qed.

Lemma length_author_table (database : list PaperRecord) (F : list R) :
  List.length F = List.length database ->
  List.length (author_table database F) = List.length (distinct_authors database).
Proof.
  intros H; destruct (author_table_spec database F H) as [Hp _].
  apply Permutation_length in Hp; now rewrite length_map in Hp.
Qed.

(** [find_similar_authors] in terms of the steps. *)
Lemma find_similar_authors_steps (q_best q_full : vector) (d : nat)
    (database : list PaperRecord) (top_k : Z) (A B F : list R) :
  paper_scores q_best q_full d database = Ok (A, B, F) ->
  find_similar_authors q_best q_full d database top_k
  = Ok (head top_k (author_table database F)).
Proof. intros H; unfold find_similar_authors; now rewrite H. Qed.

Lemma find_similar_authors_inv (q_best q_full : vector) (d : nat)
    (database : list PaperRecord) (top_k : Z) (rows : list AuthorScore) :
  find_similar_authors q_best q_full d database top_k = Ok rows ->
  exists A B F, paper_scores q_best q_full d database = Ok (A, B, F)
                /\ rows = head top_k (author_table database F).
Proof.
  unfold find_similar_authors.
  destruct (paper_scores q_best q_full d database) as [[[A B] F]|] eqn:E;
    [|discriminate].
  cbn [bind snd]; intros [= <-]; eauto.
Qed.

Lemma paper_scores_lengths (q_best q_full : vector) (d : nat)
    (database : list PaperRecord) (A B F : list R) :
  paper_scores q_best q_full d database = Ok (A, B, F) ->
  List.length A = List.length database
  /\ List.length B = List.length database
  /\ List.length F = List.length database.
Proof.
  intros H; apply paper_scores_inv in H as [_ [HA [HB HF]]].
  assert (List.length A = List.length database) by (subst A; apply length_map).
  assert (List.length B = List.length database) by (subst B; apply length_map).
  repeat split; auto.
  rewrite HF, length_np_maximum; congruence.
Qed.

End SimilarityFacts.

(** ** The claims about src/similarity.py *)

Module SimilarityClaims.

Import Database Similarity Vocabulary SimilarityFacts.
Local Open Scope R_scope.

Lemma nth_map_record {A : Type} (f : A -> R) (l : list A) (i : nat) (x : A) :
  nth_error l i = Some x -> nth i (map f l) 0 = f x.
Proof.
  revert i; induction l as [|y l IH]; intros [|i]; simpl; try discriminate.
  - now intros [= ->].
  - apply IH.
Qed.

(** C1 (as amended).  On an empty database [find_similar_authors] raises
    (the matrices it builds are empty one-dimensional arrays, which
    [cosine_similarity] refuses), whatever the query vectors and [top_k];
    and the corpus builder never produces an empty database: it writes
    nothing for an empty corpus, and a database it writes has a record. *)
Theorem find_similar_authors_empty_database_raises
    (query_best_vector query_full_vector : vector) (embedding_dim : nat)
    (top_k : Z) :
  find_similar_authors query_best_vector query_full_vector embedding_dim [] top_k
  = ValueError
  /\ (forall encode, Embed.build_multivector_database encode [] = None)
  /\ (forall encode pdf_files database,
        Embed.build_multivector_database encode pdf_files = Some database ->
        database <> []).
Proof.
  split; [reflexivity|]. split; [reflexivity|].
  intros encode pdf_files database.
  apply EmbedFacts.build_multivector_database_nonempty.
Qed.

(** C1, counterexample.  With an empty database the call does not return
    the empty table. *)
Lemma empty_database_is_not_an_empty_result :
  find_similar_authors sample_query sample_query 2 [] 5 <> Ok [].
Proof. discriminate. Qed.

(** C2 (as amended).  For a non-empty database whose embeddings and query
    vectors have the dimension of the model, [top_k = 0] gives the empty
    table, and a negative [top_k] gives the sorted table without its last
    [- top_k] rows, which is empty only when the database has at most
    [- top_k] distinct authors. *)
Theorem find_similar_authors_nonpositive_top_k
    (query_best_vector query_full_vector : vector) (embedding_dim : nat)
    (database : list PaperRecord) (top_k : Z) :
  database <> [] ->
  well_formed query_best_vector query_full_vector embedding_dim database = true ->
  (top_k <= 0)%Z ->
  exists A B F rows,
    paper_scores query_best_vector query_full_vector embedding_dim database
    = Ok (A, B, F)
    /\ find_similar_authors query_best_vector query_full_vector embedding_dim
                            database top_k = Ok rows
    /\ (top_k = 0%Z -> rows = [])
    /\ (top_k < 0 ->
        rows = firstn (Z.to_nat (Z.of_nat (List.length (distinct_authors database))
                                 + top_k))
                      (author_table database F))%Z
    /\ List.length rows
       = (if (top_k =? 0)%Z then 0%nat
          else Z.to_nat (Z.of_nat (List.length (distinct_authors database)) + top_k))
    /\ (rows = [] <->
        (top_k = 0 \/ Z.of_nat (List.length (distinct_authors database)) <= - top_k)%Z).
Proof.
  intros Hne Hwf Hk.
  destruct (paper_scores_ok _ _ _ _ Hne Hwf) as [A [B [Hs [HA HB]]]].
  assert (HF : List.length (np_maximum A B) = List.length database)
    by (rewrite length_np_maximum; congruence).
  pose proof (length_author_table database _ HF) as Hlen.
  exists A, B, (np_maximum A B), (head top_k (author_table database (np_maximum A B))).
  split; [exact Hs|].
  split; [now apply find_similar_authors_steps with (A := A) (B := B)|].
  assert (H0 : top_k = 0%Z ->
               head top_k (author_table database (np_maximum A B)) = []).
  { intros ->; reflexivity. }
  assert (Hneg : (top_k < 0)%Z ->
    head top_k (author_table database (np_maximum A B))
    = firstn (Z.to_nat (Z.of_nat (List.length (distinct_authors database)) + top_k))
             (author_table database (np_maximum A B))).
  { intros H; rewrite head_negative by assumption; now rewrite Hlen. }
  assert (Hl : List.length (head top_k (author_table database (np_maximum A B)))
    = (if (top_k =? 0)%Z then 0%nat
       else Z.to_nat (Z.of_nat (List.length (distinct_authors database)) + top_k))).
  { destruct (Z.eqb_spec top_k 0) as [->|Hnz].
    - rewrite H0 by reflexivity; reflexivity.
    - rewrite Hneg by lia. rewrite length_firstn, Hlen; lia. }
  repeat split; auto.
  - intros Hr; rewrite Hr in Hl; simpl in Hl.
    destruct (Z.eqb_spec top_k 0); [now left | right; lia].
  - intros [H|H]; [now apply H0|].
    apply length_zero_iff_nil; rewrite Hl.
    destruct (Z.eqb_spec top_k 0); lia.
Qed.

Lemma find_similar_authors_nonpositive_top_k_witness :
  exists rows,
    find_similar_authors sample_query sample_query 2 two_authors (-2) = Ok rows
    /\ rows = [].
Proof.
  destruct (find_similar_authors_nonpositive_top_k
              sample_query sample_query 2 two_authors (-2))
    as [A [B [F [rows [_ [Hr [_ [_ [_ [_ Hempty]]]]]]]]]].
  - discriminate.
  - reflexivity.
  - lia.
  - exists rows; split; [exact Hr|].
    apply Hempty; right; vm_compute; discriminate.
Defined.

(** C2, counterexample.  With two authors in the database, [top_k = -1]
    returns one row, not the empty table. *)
Lemma negative_top_k_returns_rows :
  exists rows,
    find_similar_authors sample_query sample_query 2 two_authors (-1) = Ok rows
    /\ List.length rows = 1%nat
    /\ rows <> [].
Proof.
  destruct (paper_scores_ok sample_query sample_query 2 two_authors)
    as [A [B [Hs [HA HB]]]]; [discriminate | reflexivity|].
  exists (head (-1) (author_table two_authors (np_maximum A B))).
  split; [now apply find_similar_authors_steps with (A := A) (B := B)|].
  assert (Hl : List.length (head (-1) (author_table two_authors (np_maximum A B)))
               = 1%nat).
  { rewrite head_negative by lia.
    rewrite length_firstn, length_author_table
      by (rewrite length_np_maximum; congruence).
    reflexivity. }
  split; [exact Hl|].
  intros H; rewrite H in Hl; discriminate.
Qed.


(** C4.  When the scores are computed, the final score of every paper is
    the maximum of its channel-A score (the cosine similarity of the focused
    query with the paper's focused embedding, zeros when absent) and its
    channel-B score (the same on the full vectors); it is at least each of
    the two, and it is the score [find_similar_authors] aggregates. *)
Theorem final_score_is_max_of_channels
    (query_best_vector query_full_vector : vector) (embedding_dim : nat)
    (database : list PaperRecord) (A B F : list R) :
  paper_scores query_best_vector query_full_vector embedding_dim database
  = Ok (A, B, F) ->
  (forall top_k,
     find_similar_authors query_best_vector query_full_vector embedding_dim
                          database top_k
     = Ok (head top_k (author_table database F)))
  /\ List.length F = List.length database
  /\ F = np_maximum A B
  /\ forall i record, nth_error database i = Some record ->
       nth i A 0 = cosine query_best_vector
                     (embedding_or_zeros embedding_dim (best_text_embedding record))
       /\ nth i B 0 = cosine query_full_vector
                        (embedding_or_zeros embedding_dim (full_text_embedding record))
       /\ nth i F 0 = Rmax (nth i A 0) (nth i B 0)
       /\ nth i A 0 <= nth i F 0
       /\ nth i B 0 <= nth i F 0.
Proof.
  intros Hs.
  split; [intros top_k; now apply find_similar_authors_steps with (A := A) (B := B)|].
  destruct (paper_scores_lengths _ _ _ _ _ _ _ Hs) as [HlA [HlB HlF]].
  destruct (paper_scores_inv _ _ _ _ _ _ _ Hs) as [_ [HA [HB HF]]].
  split; [exact HlF|]. split; [exact HF|].
  intros i record Hi.
  assert (Hm : nth i F 0 = Rmax (nth i A 0) (nth i B 0))
    by (rewrite HF; apply nth_np_maximum; congruence).
  split; [rewrite HA at 1; exact (nth_map_record _ _ _ _ Hi)|].
  split; [rewrite HB at 1; exact (nth_map_record _ _ _ _ Hi)|].
  split; [exact Hm|].
  rewrite Hm; split; [apply Rmax_l | apply Rmax_r].
Qed.

Lemma final_score_is_max_of_channels_witness :
  exists A B F,
    paper_scores sample_query sample_query 2 two_authors = Ok (A, B, F)
    /\ nth 1 F 0 = Rmax (nth 1 A 0) (nth 1 B 0)
    /\ nth 1 A 0 <= nth 1 F 0
    /\ nth 1 B 0 <= nth 1 F 0.
Proof.
  destruct (paper_scores_ok sample_query sample_query 2 two_authors)
    as [A [B [Hs _]]]; [discriminate | reflexivity|].
  exists A, B, (np_maximum A B); split; [exact Hs|].
  apply (final_score_is_max_of_channels _ _ _ _ _ _ _ Hs) with (i := 1%nat)
                                                              (record := full_only "bob").
  reflexivity.
Defined.

(** C9.  When the scores are computed, a paper whose focused embedding is
    absent has channel-A score exactly 0: the zero vector stands for the
    embedding, its norm is replaced by 1 so that it is normalised to itself
    (no normalisation divides by zero), and the cosine similarity of any
    query with it, the zero query included, is 0. *)
Theorem absent_focused_embedding_scores_zero
    (query_best_vector query_full_vector : vector) (embedding_dim : nat)
    (database : list PaperRecord) (A B F : list R) (i : nat)
    (record : PaperRecord) :
  paper_scores query_best_vector query_full_vector embedding_dim database
  = Ok (A, B, F) ->
  nth_error database i = Some record ->
  best_text_embedding record = None ->
  nth_error A i = Some 0
  /\ nth i A 0 = cosine query_best_vector (np_zeros embedding_dim)
  /\ normalize (np_zeros embedding_dim) = np_zeros embedding_dim
  /\ (forall v, 0 < handle_zeros_in_scale (row_norm v))
  /\ (forall q, cosine q (np_zeros embedding_dim) = 0)
  /\ cosine (np_zeros embedding_dim) (np_zeros embedding_dim) = 0.
Proof.
  intros Hs Hi Hnone.
  destruct (paper_scores_inv _ _ _ _ _ _ _ Hs) as [_ [HA _]].
  assert (Hn : nth i A 0 = cosine query_best_vector (np_zeros embedding_dim)).
  { rewrite HA, (nth_map_record _ _ _ _ Hi), Hnone; reflexivity. }
  split.
  - rewrite HA, nth_error_map, Hi; simpl.
    now rewrite Hnone; simpl; rewrite cosine_zeros.
  - split; [exact Hn|].
    split; [apply normalize_zeros|].
    split; [intros v; apply handle_zeros_in_scale_pos|].
    split; [intros q|]; apply cosine_zeros.
Qed.

Lemma absent_focused_embedding_scores_zero_witness :
  exists A B F,
    paper_scores sample_query sample_query 2 two_authors = Ok (A, B, F)
    /\ nth_error A 1 = Some 0.
Proof.
  destruct (paper_scores_ok sample_query sample_query 2 two_authors)
    as [A [B [Hs _]]]; [discriminate | reflexivity|].
  exists A, B, (np_maximum A B); split; [exact Hs|].
  apply (absent_focused_embedding_scores_zero _ _ _ _ _ _ _ 1%nat
           (full_only "bob") Hs); reflexivity.
Defined.

Lemma series_max_attained (l : list R) : l <> [] -> In (series_max l) l.
Proof.
  destruct l as [|x l]; [congruence|]; intros _; simpl.
  revert x; induction l as [|y l IH]; intros x; simpl; [now left|].
  destruct (IH (Rmax x y)) as [H|H]; [|now right; right].
  rewrite <- H; unfold Rmax; destruct (Rle_dec x y); auto.
Qed.

(** C10 (as amended).  Take any final scores, one per record, whatever
    arithmetic produced them.  In every row of the table built from them,
    [count] is the number of that author's papers and at least 1, [max] is
    the largest of that author's final scores, and the exact arithmetic
    mean of those scores is at most [max].  Every table returned by
    [find_similar_authors] is built that way from its final scores.  (The
    [mean] column of the program is that mean computed in binary64; its
    rounding is left out here.) *)
Theorem row_max_at_least_exact_mean
    (database : list PaperRecord) (final_scores : list R) (top_k : Z)
    (row : AuthorScore) :
  List.length final_scores = List.length database ->
  In row (head top_k (author_table database final_scores)) ->
  (let g := scores_of_author database final_scores (row_author row) in
   g <> []
   /\ (1 <= row_count row)%nat
   /\ row_count row = List.length g
   /\ row_count row = count_occ string_dec (map author database) (row_author row)
   /\ row_max row = series_max g
   /\ In (row_max row) g
   /\ (forall s, In s g -> s <= row_max row)
   /\ series_mean g <= row_max row)
  /\ (forall query_best_vector query_full_vector embedding_dim rows,
        find_similar_authors query_best_vector query_full_vector embedding_dim
                             database top_k = Ok rows ->
        exists A B F,
          paper_scores query_best_vector query_full_vector embedding_dim database
          = Ok (A, B, F)
          /\ List.length F = List.length database
          /\ rows = head top_k (author_table database F)).
Proof.
  intros HlF Hin; split.
  - destruct (author_table_spec database final_scores HlF) as [_ [_ Hrows]].
    rewrite Forall_forall in Hrows.
    apply head_incl, Hrows in Hin; cbv zeta in *.
    destruct Hin as [Hne [_ [Hcount Hmax]]].
    split; [exact Hne|].
    split.
    { rewrite Hcount.
      destruct (scores_of_author database final_scores (row_author row));
        [congruence | simpl; lia]. }
    split; [exact Hcount|].
    split; [rewrite Hcount; now apply length_scores_of_author|].
    split; [exact Hmax|].
    split; [rewrite Hmax; now apply series_max_attained|].
    split; [intros s Hs; rewrite Hmax; now apply series_max_ge|].
    rewrite Hmax; now apply series_mean_le_max.
  - intros qb qf d rows Hf.
    destruct (find_similar_authors_inv _ _ _ _ _ _ Hf) as [A [B [F [Hs ->]]]].
    destruct (paper_scores_lengths _ _ _ _ _ _ _ Hs) as [_ [_ Hl]].
    exists A, B, F; auto.
Qed.

Lemma row_max_at_least_exact_mean_witness :
  exists row,
    In row (head 5 (author_table two_authors [/ 2; / 4]))
    /\ series_mean (scores_of_author two_authors [/ 2; / 4] (row_author row))
       <= row_max row.
Proof.
  assert (Hl : List.length [/ 2; / 4] = List.length two_authors) by reflexivity.
  pose proof (length_author_table two_authors [/ 2; / 4] Hl) as Hlen.
  assert (Hh : head 5 (author_table two_authors [/ 2; / 4])
               = author_table two_authors [/ 2; / 4]).
  { rewrite head_positive by lia. apply firstn_all2. rewrite Hlen. vm_compute. lia. }
  destruct (author_table two_authors [/ 2; / 4]) as [|row rest] eqn:E;
    [discriminate|].
  exists row; rewrite Hh.
  assert (Hin : In row (head 5 (author_table two_authors [/ 2; / 4])))
    by (rewrite E, <- Hh; now left).
  split; [now left|].
  apply (row_max_at_least_exact_mean two_authors [/ 2; / 4] 5 row Hl Hin).
Defined.

(** C8 (as amended).  For a non-empty database whose embeddings and query
    vectors have the dimension of the model, and a positive [top_k],
    [find_similar_authors] returns the first [top_k] rows of the table that
    has one row per distinct author in descending order of [max]; with
    fewer distinct authors than [top_k] it returns that whole table, one
    row per distinct author and no more. *)
Theorem find_similar_authors_top_rows
    (query_best_vector query_full_vector : vector) (embedding_dim : nat)
    (database : list PaperRecord) (top_k : Z) :
  database <> [] ->
  well_formed query_best_vector query_full_vector embedding_dim database = true ->
  (0 < top_k)%Z ->
  exists A B F rows,
    paper_scores query_best_vector query_full_vector embedding_dim database
    = Ok (A, B, F)
    /\ find_similar_authors query_best_vector query_full_vector embedding_dim
                            database top_k = Ok rows
    /\ rows = firstn (Z.to_nat top_k) (author_table database F)
    /\ max_descending (author_table database F)
    /\ max_descending rows
    /\ Permutation (map row_author (author_table database F))
                   (distinct_authors database)
    /\ List.length rows
       = Nat.min (Z.to_nat top_k) (List.length (distinct_authors database))
    /\ ((List.length (distinct_authors database) <= Z.to_nat top_k)%nat ->
        rows = author_table database F
        /\ Permutation (map row_author rows) (distinct_authors database)).
Proof.
  intros Hne Hwf Hk.
  destruct (paper_scores_ok _ _ _ _ Hne Hwf) as [A [B [Hs [HA HB]]]].
  assert (HF : List.length (np_maximum A B) = List.length database)
    by (rewrite length_np_maximum; congruence).
  destruct (author_table_spec database _ HF) as [Hperm [Hsorted _]].
  pose proof (length_author_table database _ HF) as Hlen.
  exists A, B, (np_maximum A B),
    (firstn (Z.to_nat top_k) (author_table database (np_maximum A B))).
  split; [exact Hs|].
  split.
  { rewrite (find_similar_authors_steps _ _ _ _ top_k _ _ _ Hs).
    now rewrite head_positive by lia. }
  split; [reflexivity|].
  split; [exact Hsorted|].
  split; [now apply firstn_max_descending|].
  split; [exact Hperm|].
  split; [now rewrite length_firstn, Hlen|].
  intros Hfew.
  rewrite firstn_all2 by lia.
  split; [reflexivity | exact Hperm].
Qed.

Lemma find_similar_authors_top_rows_witness :
  (exists rows,
     find_similar_authors sample_query sample_query 2 ten_authors 3 = Ok rows
     /\ List.length rows = 3%nat /\ max_descending rows)
  /\ (exists rows,
        find_similar_authors sample_query sample_query 2 ten_authors 50 = Ok rows
        /\ List.length rows = 10%nat /\ max_descending rows).
Proof.
  split.
  - destruct (find_similar_authors_top_rows sample_query sample_query 2
                ten_authors 3)
      as [A [B [F [rows [_ [Hr [_ [_ [Hs [_ [Hl _]]]]]]]]]]];
      [discriminate | reflexivity | lia|].
    exists rows; repeat split; assumption.
  - destruct (find_similar_authors_top_rows sample_query sample_query 2
                ten_authors 50)
      as [A [B [F [rows [_ [Hr [_ [_ [Hs [_ [Hl _]]]]]]]]]]];
      [discriminate | reflexivity | lia|].
    exists rows; repeat split; assumption.
Defined.

(** C8, counterexample.  The empty database has fewer distinct authors than
    [top_k = 3], and the call raises instead of returning the table with no
    row. *)
Lemma empty_database_returns_no_table :
  (List.length (distinct_authors []) < 3)%nat
  /\ find_similar_authors sample_query sample_query 2 [] 3 = ValueError
  /\ forall rows,
       find_similar_authors sample_query sample_query 2 [] 3 <> Ok rows.
Proof.
  split; [simpl; lia|]. split; [reflexivity | discriminate].
Qed.

End SimilarityClaims.

(** ** The binary64 table *)

Module Binary64Facts.

Import PrimFloat Binary64.
Local Open Scope float_scope.

(** C10, counterexample.  In binary64, an author with three papers that
    each score 4/5 gets a row whose [mean], the rounded sum divided by 3,
    is above its [max]; the plain sum gives the same mean as the
    compensated one. *)
Lemma binary64_mean_exceeds_max :
  exists row other,
    find_similar_authors query_4_3 query_4_3 2 same_three 5
    = Similarity.Ok [row; other]
    /\ row_author row = "alice"%string
    /\ row_count row = 3%nat
    /\ row_max row = 4 / 5
    /\ (row_max row <? row_mean row) = true
    /\ row_mean row = plain_sum [row_max row; row_max row; row_max row] / 3.
Proof.
  do 2 eexists; split; [vm_compute; reflexivity|].
  repeat split; vm_compute; reflexivity.
Qed.

(** *** The rows of the binary64 table *)















End Binary64Facts.

(** ** Further facts about src/parse_pdf.py *)

Module ParsePdfMore.

Import PyStr ParsePdf Vocabulary Vocabulary2 ParsePdfFacts.
Local Open Scope string_scope.
Local Open Scope nat_scope.

(** *** Lengths and slices *)

Lemma length_take (n : nat) (s : string) : length (take n s) = Nat.min n (length s).
Proof.
  revert s; induction n as [|n IH]; intros [|c t]; simpl; auto.
Qed.

Lemma length_drop (n : nat) (s : string) : length (drop n s) = length s - n.
Proof.
  revert s; induction n as [|n IH]; intros [|c t]; simpl; auto.
Qed.

Lemma length_append (s t : string) : length (s ++ t) = length s + length t.
Proof. induction s; simpl; auto. Qed.

Lemma prefix_length (p s : string) : prefix p s = true -> length p <= length s.
Proof.
  revert s; induction p as [|a p IH]; intros [|c t]; simpl; try lia; try discriminate.
  destruct (ascii_dec a c); [|discriminate].
  intros H; apply IH in H; lia.
Qed.

Lemma marker_at_room (text : string) (i : nat) :
  marker_at text i -> i + 11 <= length text.
Proof.
  intros [[Hi Hp] | [Hi Hp]]; apply prefix_length in Hp;
    rewrite length_drop, length_lower in Hp; rewrite length_lower in Hi;
    simpl in Hp; lia.
Qed.

(** *** Blank documents *)

Lemma all_space_append (s t : string) :
  all_space (s ++ t) = all_space s && all_space t.
Proof.
  induction s as [|c s IH]; simpl; [reflexivity|].
  now rewrite IH, andb_assoc.
Qed.

Lemma read_pages_from (pages : list string) (acc : string) :
  fold_left (fun acc page => acc ++ page ++ String nl "") pages acc
  = acc ++ read_pages pages.
Proof.
  unfold read_pages; revert acc; induction pages as [|p rest IH]; intros acc; simpl.
  - clear; induction acc; simpl; congruence.
  - rewrite IH, (IH (p ++ String nl "")).
    clear; induction acc; simpl; congruence.
Qed.

Lemma read_pages_cons (page : string) (pages : list string) :
  read_pages (page :: pages) = page ++ String nl (read_pages pages).
Proof.
  unfold read_pages at 1; simpl; rewrite read_pages_from.
  clear; induction page; simpl; congruence.
Qed.

Lemma all_space_read_pages (pages : list string) :
  all_space (read_pages pages) = forallb all_space pages.
Proof.
  induction pages as [|p rest IH]; [reflexivity|].
  rewrite read_pages_cons, all_space_append; simpl.
  now rewrite IH.
Qed.

Lemma full_text_none_iff (doc : Document) :
  full_text (extract_multivector_text doc) = None <->
  doc = None \/ exists pages, doc = Some pages /\ forallb all_space pages = true.
Proof.
  destruct doc as [pages|].
  - pose proof (all_space_read_pages pages) as Hb.
    unfold extract_multivector_text.
    destruct (truthy (strip (read_pages pages))) eqn:E; cbn [negb full_text].
    + assert (Hs : all_space (read_pages pages) = false).
      { destruct (all_space (read_pages pages)) eqn:Ha; [|reflexivity].
        apply strip_empty_iff in Ha; rewrite Ha in E; discriminate. }
      split; [discriminate|].
      intros [H | [pages' [[= <-] H]]]; [discriminate | congruence].
    + apply truthy_false, strip_empty_iff in E.
      split; [|reflexivity].
      intros _; right; exists pages; split; [reflexivity | congruence].
  - cbn; split; auto.
Qed.

(** X2.  [extract_multivector_text] gives no full text exactly when the
    document cannot be read or every page of it is blank (a document with
    no page included); it then gives no best text either, and in every
    other case the full text is [clean_full_text] of the pages read. *)
Theorem extract_no_text_iff_unreadable_or_blank (doc : Document) :
  (full_text (extract_multivector_text doc) = None <->
     doc = None
     \/ exists pages, doc = Some pages /\ forallb all_space pages = true)
  /\ (full_text (extract_multivector_text doc) = None ->
      best_text (extract_multivector_text doc) = None)
  /\ (forall pages, doc = Some pages -> forallb all_space pages = false ->
      full_text (extract_multivector_text doc)
      = Some (clean_full_text (read_pages pages))).
Proof.
  split; [apply full_text_none_iff|]. split.
  - intros H; apply full_text_none_iff in H as [-> | [pages [-> Hb]]];
      [reflexivity|].
    rewrite best_text_spec.
    rewrite <- all_space_read_pages in Hb.
    now rewrite (abstract_intro_text_all_space _ Hb).
  - intros pages -> Hb; apply full_text_spec.
    now rewrite all_space_read_pages.
Qed.

(** *** Tokens *)










(** On a text without terminator the abstract part is the text from
    "abstract" on with single spaces. *)
Example unterminated_paper_parts :
  abstract_part unterminated_paper (lower unterminated_paper)
  = "Abstract we study graphs and the intro duction follows"
  /\ intro_part unterminated_paper (lower unterminated_paper) = "".
Proof. split; vm_compute; reflexivity. Qed.

(** *** Searches *)

(** [re_search] returns the leftmost index at which the pattern matches. *)
Lemma search_from_spec (p : string -> string -> bool) (s before : string)
    (i k : nat) :
  search_from p before s i = Some k ->
  exists j, k = i + j /\ j <= length s
            /\ p (rev_onto (take j s) before) (drop j s) = true
            /\ forall j', j' < j ->
                 p (rev_onto (take j' s) before) (drop j' s) = false.
Proof.
  revert before i; induction s as [|c rest IH]; intros before i; cbn [search_from].
  - destruct (p before "") eqn:E; [|discriminate].
    intros [= <-]; exists 0; repeat split; simpl; auto; lia.
  - destruct (p before (String c rest)) eqn:E.
    + intros [= <-]; exists 0; repeat split; simpl; auto; lia.
    + intros H; apply IH in H as [j [-> [Hj [Hm Hleft]]]].
      exists (S j); repeat split; simpl; auto; try lia.
      intros [|j'] Hlt; simpl; [exact E | apply Hleft; lia].
Qed.

Lemma re_search_spec (p : string -> string -> bool) (s : string) (k : nat) :
  re_search p s = Some k ->
  k <= length s /\ matches_at p s k = true
  /\ forall j, j < k -> matches_at p s j = false.
Proof.
  unfold re_search, matches_at; intros H.
  apply search_from_spec in H as [j [-> [Hj [Hm Hleft]]]]; auto.
Qed.

Lemma lower_take (n : nat) (s : string) : lower (take n s) = take n (lower s).
Proof. revert s; induction n; intros [|c t]; simpl; congruence. Qed.

Lemma lower_drop (n : nat) (s : string) : lower (drop n s) = drop n (lower s).
Proof. revert s; induction n; intros [|c t]; simpl; auto. Qed.

Lemma take_empty (n : nat) : take n "" = "".
Proof. now destruct n. Qed.

Lemma drop_empty (n : nat) : drop n "" = "".
Proof. now destruct n. Qed.

Lemma drop_take (j e : nat) (s : string) :
  drop j (take e s) = take (e - j) (drop j s).
Proof.
  revert e s; induction j as [|j IH]; intros e s.
  - now rewrite Nat.sub_0_r.
  - destruct s as [|c t].
    + now rewrite take_empty, !drop_empty, take_empty.
    + destruct e as [|e]; [reflexivity | apply IH].
Qed.

Lemma prefix_take (w : string) (n : nat) (s : string) :
  prefix w (take n s) = true -> prefix w s = true.
Proof.
  revert n s; induction w as [|a w IH]; intros n s; [now destruct s|].
  destruct n as [|n], s as [|c t]; simpl; try discriminate.
  destruct (ascii_dec a c); [apply IH | discriminate].
Qed.

Lemma prefix_take_enough (w : string) (n : nat) (s : string) :
  prefix w s = true -> length w <= n -> prefix w (take n s) = true.
Proof.
  revert n s; induction w as [|a w IH]; intros n s;
    [intros _ _; now destruct (take n s)|].
  destruct s as [|c t]; simpl; [discriminate|].
  destruct n as [|n]; [lia|]; simpl.
  destruct (ascii_dec a c); [intros; apply IH; auto; lia | discriminate].
Qed.

Lemma prefix_split (w s : string) :
  prefix w s = true -> s = w ++ drop (length w) s.
Proof.
  revert s; induction w as [|a w IH]; intros s; [reflexivity|].
  destruct s as [|c t]; simpl; [discriminate|].
  destruct (ascii_dec a c) as [->|]; [|discriminate].
  intros H; f_equal; now apply IH.
Qed.

(** The text up to the first terminator holds no terminator. *)
Lemma no_terminator_before (alts : list string) (s : string) (e : nat) :
  Forall (fun w => w <> "") alts ->
  re_search (literals alts) s = Some e ->
  forall w j, In w alts -> occurs_within w (take e s) j = false.
Proof.
  intros Hne Hs w j Hw.
  apply re_search_spec in Hs as [He [_ Hleft]].
  destruct (occurs_within w (take e s) j) eqn:E; [|reflexivity].
  unfold occurs_within in E; apply andb_true_iff in E as [Hfit Hp].
  apply Nat.leb_le in Hfit; rewrite length_take in Hfit.
  rewrite drop_take in Hp; apply prefix_take in Hp.
  assert (Hlen : 0 < length w).
  { rewrite Forall_forall in Hne; specialize (Hne w Hw).
    destruct w; [congruence | simpl; lia]. }
  assert (Hj : j < e) by lia.
  specialize (Hleft j Hj); unfold matches_at, literals in Hleft.
  assert (Ht : existsb (fun a => prefix a (drop j s)) alts = true)
    by (apply existsb_exists; eauto).
  congruence.
Qed.

(** The two parts of a short paper. *)
Example short_paper_parts :
  abstract_part short_paper (lower short_paper)
  = "Abstract We study graphs." ++ String nl ""
  /\ intro_part short_paper (lower short_paper)
     = String nl ("Introduction We begin here.").
Proof. split; vm_compute; reflexivity. Qed.

End ParsePdfMore.

(** ** Facts about src/parse_pdf.py on all code points *)

Module ParsePdfUnicodeFacts.

Import PyUnicode ParsePdfUnicode VocabularyUnicode.

(** *** [rfind] returns the last occurrence *)

Lemma occurs_at_tail (sub : str) (c : N) (t : str) (i : nat) :
  occurs_at sub (c :: t) (S i) <-> occurs_at sub t i.
Proof. unfold occurs_at; simpl; split; intros [H1 H2]; split; auto; lia. Qed.

Lemma rfind_last_occurrence (sub s : str) :
  (rfind s sub = (-1)%Z /\ forall i, ~ occurs_at sub s i)
  \/ (exists i, rfind s sub = Z.of_nat i /\ occurs_at sub s i
                /\ forall j, occurs_at sub s j -> j <= i).
Proof.
  induction s as [|c t IH]; cbn [rfind].
  - destruct (starts_with sub []) eqn:E.
    + right; exists 0. split; [reflexivity|]. split.
      * split; [simpl; lia | exact E].
      * intros j [Hj _]; simpl in Hj; lia.
    + left; split; [reflexivity|].
      intros i [Hi Hp]; simpl in Hi.
      assert (i = 0) by lia; subst; cbn [skipn] in Hp; congruence.
  - destruct IH as [[Hr Hno] | [i [Hr [Hocc Hmax]]]].
    + rewrite Hr; cbn [Z.leb Z.compare].
      destruct (starts_with sub (c :: t)) eqn:E.
      * right; exists 0. split; [reflexivity|]. split.
        -- split; [simpl; lia | exact E].
        -- intros [|j] Hj; [lia|].
           apply occurs_at_tail in Hj; now apply Hno in Hj.
      * left; split; [reflexivity|].
        intros [|j] Hj.
        -- destruct Hj as [_ Hp]; cbn [skipn] in Hp; congruence.
        -- apply occurs_at_tail in Hj; now apply Hno in Hj.
    + rewrite Hr.
      destruct (0 <=? Z.of_nat i)%Z eqn:E; [|apply Z.leb_gt in E; lia].
      right; exists (S i). split; [lia|]. split.
      * now apply occurs_at_tail.
      * intros [|j] Hj; [lia|].
        apply occurs_at_tail in Hj; apply Hmax in Hj; lia.
Qed.

Lemma slice_to_index (s : str) (i : nat) : slice_to s (Z.of_nat i) = firstn i s.
Proof.
  unfold slice_to.
  destruct (Z.of_nat i <? 0)%Z eqn:E; [apply Z.ltb_lt in E; lia|].
  now rewrite Nat2Z.id.
Qed.

(** What [clean_full_text] returns, in terms of the markers of
    [text.lower()]. *)
Lemma clean_full_text_lower_spec (table : str -> N -> str -> N) (text : str) :
  (exists i, lower_marker_at table text i
             /\ (forall j, lower_marker_at table text j -> j <= i)
             /\ clean_full_text table text = firstn i text)
  \/ ((forall i, ~ lower_marker_at table text i)
      /\ clean_full_text table text = text).
Proof.
  unfold clean_full_text, lower_marker_at.
  destruct (rfind_last_occurrence references_marker (lower table text))
    as [[Hr Hrno] | [i [Hr [Hri Hrmax]]]];
  destruct (rfind_last_occurrence bibliography_marker (lower table text))
    as [[Hb Hbno] | [k [Hb [Hbk Hbmax]]]]; rewrite Hr, Hb.
  - right; split; [|reflexivity].
    intros i [H|H]; [now apply Hrno in H | now apply Hbno in H].
  - left; exists k.
    replace (Z.max (-1) (Z.of_nat k)) with (Z.of_nat k) by lia.
    destruct (Z.of_nat k =? -1)%Z eqn:E; [apply Z.eqb_eq in E; lia|]; simpl.
    repeat split; auto.
    + intros j [H|H]; [now apply Hrno in H | now apply Hbmax].
    + apply slice_to_index.
  - left; exists i.
    replace (Z.max (Z.of_nat i) (-1)) with (Z.of_nat i) by lia.
    destruct (Z.of_nat i =? -1)%Z eqn:E; [apply Z.eqb_eq in E; lia|]; simpl.
    repeat split; auto.
    + intros j [H|H]; [now apply Hrmax | now apply Hbno in H].
    + apply slice_to_index.
  - left; exists (Nat.max i k).
    replace (Z.max (Z.of_nat i) (Z.of_nat k)) with (Z.of_nat (Nat.max i k)) by lia.
    destruct (Z.of_nat (Nat.max i k) =? -1)%Z eqn:E; [apply Z.eqb_eq in E; lia|]; simpl.
    repeat split.
    + destruct (Nat.max_spec i k) as [[_ ->] | [_ ->]]; auto.
    + intros j [H|H]; [apply Hrmax in H | apply Hbmax in H]; lia.
    + apply slice_to_index.
Qed.

(** *** Lower case of a text without U+0130 *)

Section Dotless.

Variable table : str -> N -> str -> N.

Lemma dotless_cons (c : N) (s : str) :
  dotless (c :: s) = true -> N.eqb c dotted_I = false /\ dotless s = true.
Proof.
  unfold dotless; simpl; intros H; apply andb_true_iff in H as [Hc Hs].
  now apply negb_true_iff in Hc.
Qed.

Lemma length_lower_from (s before : str) :
  dotless s = true -> List.length (lower_from table before s) = List.length s.
Proof.
  revert before; induction s as [|c s IH]; intros before H; [reflexivity|].
  apply dotless_cons in H as [Hc Hs].
  cbn [lower_from]; unfold lower_cp; rewrite Hc; simpl; now rewrite IH.
Qed.

Lemma skipn_lower_from (s before : str) (i : nat) :
  dotless s = true ->
  skipn i (lower_from table before s)
  = lower_from table (rev (firstn i s) ++ before) (skipn i s).
Proof.
  revert before i; induction s as [|c s IH]; intros before i H.
  - now destruct i.
  - destruct i as [|i]; [reflexivity|].
    apply dotless_cons in H as [Hc Hs].
    cbn [lower_from firstn skipn rev]; unfold lower_cp; rewrite Hc.
    cbn [app skipn]; rewrite (IH _ _ Hs), <- app_assoc; reflexivity.
Qed.

Lemma lower_tail_skipn (s : str) (i : nat) :
  dotless s = true -> lower_tail table s i = skipn i (lower table s).
Proof.
  intros H; unfold lower_tail, lower.
  now rewrite (skipn_lower_from s [] i H), app_nil_r.
Qed.

Lemma marker_at_iff_lower (s : str) (i : nat) :
  dotless s = true -> (marker_at table s i <-> lower_marker_at table s i).
Proof.
  intros H; unfold marker_at, lower_marker_at, occurs_at, lower.
  rewrite (lower_tail_skipn s i H), (length_lower_from s [] H).
  unfold lower; tauto.
Qed.

End Dotless.

(** *** Blank texts *)

Lemma lstrip_blank (s : str) : all_space s = true -> lstrip s = [].
Proof.
  induction s as [|c t IH]; simpl; [reflexivity|].
  intros H; apply andb_true_iff in H as [Hc Ht]; rewrite Hc; auto.
Qed.

Lemma rstrip_empty_blank (s : str) : rstrip s = [] -> all_space s = true.
Proof.
  induction s as [|c t IH]; simpl; [reflexivity|].
  destruct (rstrip t) eqn:E; [|discriminate].
  destruct (isspace c); [auto | discriminate].
Qed.

Lemma strip_empty_iff_blank (s : str) : strip s = [] <-> all_space s = true.
Proof.
  unfold strip; split; intros H.
  - apply rstrip_empty_blank in H.
    induction s as [|c t IH]; [reflexivity|].
    simpl in *; destruct (isspace c) eqn:Hc; [auto|].
    simpl in H; rewrite Hc in H; discriminate.
  - now rewrite lstrip_blank.
Qed.

Lemma full_text_of_pages (table : str -> N -> str -> N) (pages : list str) :
  all_space (read_pages pages) = false ->
  full_text (extract_multivector_text table (Some pages))
  = Some (clean_full_text table (read_pages pages)).
Proof.
  intros H; unfold extract_multivector_text.
  destruct (truthy (strip (read_pages pages))) eqn:E; simpl; [reflexivity|].
  assert (Hs : strip (read_pages pages) = [])
    by (destruct (strip (read_pages pages)); [reflexivity | discriminate]).
  apply strip_empty_iff_blank in Hs; congruence.
Qed.

Lemma starts_with_length (p s : str) :
  starts_with p s = true -> List.length p <= List.length s.
Proof.
  revert s; induction p as [|a p IH]; intros [|c t]; simpl; try lia; try discriminate.
  intros H; apply andb_true_iff in H as [_ H]; apply IH in H; lia.
Qed.

(** C5 (as amended).  On every text, of any code points, the full excerpt
    is a prefix of the text, it is [text[:p]] for the index [p] of the last
    marker in [text.lower()], and it is the whole text when [text.lower()]
    has no marker.  On every text without U+0130 (the one character whose
    lower case is longer than itself), a marker of [text.lower()] stands at
    the same index in the text: when a newline of the text is immediately
    followed, in any letter case, by "references" or "bibliography", the
    full excerpt is the text cut at the last such newline (the newline, the
    heading and all that follows are left out), and when there is no such
    newline, a heading on the first line included, it is the whole
    text. *)
Theorem full_excerpt_is_cut_at_last_marker
    (table : str -> N -> str -> N) (text : str) :
  (exists rest, text = clean_full_text table text ++ rest)
  /\ (forall pages, read_pages pages = text -> all_space text = false ->
        full_text (extract_multivector_text table (Some pages))
        = Some (clean_full_text table text))
  /\ ((exists i, lower_marker_at table text i) ->
      exists p, lower_marker_at table text p
                /\ (forall j, lower_marker_at table text j -> j <= p)
                /\ clean_full_text table text = firstn p text)
  /\ ((forall i, ~ lower_marker_at table text i) ->
      clean_full_text table text = text)
  /\ (dotless text = true ->
      ((exists i, marker_at table text i) ->
       exists p, marker_at table text p
                 /\ (forall j, marker_at table text j -> j <= p)
                 /\ clean_full_text table text = firstn p text
                 /\ text = clean_full_text table text ++ skipn p text
                 /\ List.length (clean_full_text table text) = p)
      /\ ((forall i, ~ marker_at table text i) ->
          clean_full_text table text = text)).
Proof.
  assert (Hpre : exists rest, text = clean_full_text table text ++ rest).
  { destruct (clean_full_text_lower_spec table text) as [[i [_ [_ ->]]] | [_ ->]].
    - exists (skipn i text); symmetry; apply firstn_skipn.
    - exists []; now rewrite app_nil_r. }
  split; [exact Hpre|].
  split; [intros pages <-; apply full_text_of_pages|].
  split.
  { intros [i Hi].
    destruct (clean_full_text_lower_spec table text) as [[p [Hp [Hmax Hc]]] | [Hno _]];
      [eauto | exfalso; exact (Hno i Hi)]. }
  split.
  { intros Hno.
    destruct (clean_full_text_lower_spec table text) as [[p [Hp _]] | [_ Hc]];
      [exfalso; exact (Hno p Hp) | exact Hc]. }
  intros Hd; split.
  - intros [i Hi]; apply (marker_at_iff_lower table text i Hd) in Hi.
    destruct (clean_full_text_lower_spec table text) as [[p [Hp [Hmax Hc]]] | [Hno _]];
      [|exfalso; exact (Hno i Hi)].
    exists p.
    split; [now apply marker_at_iff_lower|].
    split; [intros j Hj; apply Hmax; now apply marker_at_iff_lower in Hj|].
    split; [exact Hc|].
    split; [rewrite Hc; symmetry; apply firstn_skipn|].
    rewrite Hc, length_firstn.
    assert (p <= List.length text); [|lia].
    pose proof (length_lower_from table text [] Hd) as Hl.
    fold (lower table text) in Hl.
    destruct Hp as [[Hle _] | [Hle _]]; rewrite Hl in Hle; exact Hle.
  - intros Hno.
    destruct (clean_full_text_lower_spec table text) as [[p [Hp _]] | [_ Hc]];
      [|exact Hc].
    exfalso; apply (Hno p); now apply marker_at_iff_lower.
Qed.

(** The cut on two sample texts: before the newline of the heading, and,
    after a U+0130, one character late, so that the newline is kept. *)
Example body_then_references_cut :
  clean_full_text latin1_table body_then_references = of_string "Body".
Proof. vm_compute; reflexivity. Qed.

Example dotted_then_references_cut :
  clean_full_text latin1_table dotted_then_references = [dotted_I; nl].
Proof. vm_compute; reflexivity. Qed.

Lemma marker_room (table : str -> N -> str -> N) (text : str) (i : nat) :
  dotless text = true -> marker_at table text i ->
  i + 11 <= List.length text.
Proof.
  intros Hd [Hi Hm]; rewrite (lower_tail_skipn table text i Hd) in Hm.
  pose proof (length_lower_from table text [] Hd) as Hl; fold (lower table text) in Hl.
  destruct Hm as [Hm|Hm]; apply starts_with_length in Hm;
    rewrite length_skipn, Hl in Hm; simpl in Hm; lia.
Qed.

(** X1.  On a text without U+0130, [clean_full_text] returns the text
    unchanged exactly when no newline of it is immediately followed, in any
    letter case, by "references" or "bibliography"; when one is, the result
    is shorter by at least the eleven characters of the shortest marker. *)
Theorem clean_full_text_unchanged_iff_no_marker
    (table : str -> N -> str -> N) (text : str) :
  dotless text = true ->
  (clean_full_text table text = text <-> forall i, ~ marker_at table text i)
  /\ ((exists i, marker_at table text i) ->
      List.length (clean_full_text table text) + 11 <= List.length text).
Proof.
  intros Hd.
  assert (Hcut : forall i, marker_at table text i ->
            clean_full_text table text = firstn i text ->
            List.length (clean_full_text table text) + 11 <= List.length text).
  { intros i Hi Hc; apply (marker_room table text i Hd) in Hi.
    rewrite Hc, length_firstn; lia. }
  destruct (clean_full_text_lower_spec table text) as [[i [Hi [_ Hc]]] | [Hno Hc]].
  - apply (marker_at_iff_lower table text i Hd) in Hi.
    pose proof (Hcut i Hi Hc) as Hlen; split; [split|].
    + intros Heq; rewrite Heq in Hlen; lia.
    + intros Hno; exfalso; exact (Hno i Hi).
    + intros _; exact Hlen.
  - split; [split; [|auto]|].
    + intros _ i Hi; apply (Hno i); now apply marker_at_iff_lower.
    + intros [i Hi]; exfalso; apply (Hno i); now apply marker_at_iff_lower.
Qed.

Lemma clean_full_text_unchanged_iff_no_marker_witness :
  List.length (clean_full_text latin1_table body_then_references) + 11
  <= List.length body_then_references.
Proof.
  apply (clean_full_text_unchanged_iff_no_marker latin1_table body_then_references).
  - reflexivity.
  - exists 4; split; [vm_compute; lia | left; vm_compute; reflexivity].
Defined.

(** C5, counterexample.  The text of a document whose first line is the
    heading "References" has a line-initial heading at index 0, and no
    other; the text cut there is empty, yet the full excerpt is the whole
    text, heading included. *)
Lemma first_line_heading_is_not_cut :
  let raw := read_pages heading_first in
  dotless raw = true
  /\ line_initial_heading latin1_table raw 0 = true
  /\ (forall j, line_initial_heading latin1_table raw j = true -> j <= 0)
  /\ clean_full_text latin1_table raw = raw
  /\ full_text (extract_multivector_text latin1_table (Some heading_first))
     = Some raw
  /\ clean_full_text latin1_table raw <> firstn 0 raw.
Proof.
  cbv zeta; split; [reflexivity|]. split; [reflexivity|]. split.
  - intros j Hj.
    do 40 (destruct j as [|j]; [first [lia | vm_compute in Hj; discriminate]|]).
    vm_compute in Hj; discriminate.
  - split; [reflexivity|]. split; [reflexivity | vm_compute; discriminate].
Qed.

(** *** Searches *)

Lemma search_from_found (p : str -> str -> bool) (s before : str)
    (i k : nat) :
  search_from p before s i = Some k ->
  exists j, k = i + j /\ j <= List.length s
            /\ p (rev (firstn j s) ++ before) (skipn j s) = true
            /\ forall j', j' < j ->
                 p (rev (firstn j' s) ++ before) (skipn j' s) = false.
Proof.
  revert before i; induction s as [|c rest IH]; intros before i; cbn [search_from].
  - destruct (p before []) eqn:E; [|discriminate].
    intros [= <-]; exists 0; repeat split; simpl; auto; lia.
  - destruct (p before (c :: rest)) eqn:E.
    + intros [= <-]; exists 0; repeat split; simpl; auto; lia.
    + intros H; apply IH in H as [j [-> [Hj [Hm Hleft]]]].
      exists (S j); repeat split; simpl; try lia.
      * now rewrite <- app_assoc.
      * intros [|j'] Hlt; simpl; [exact E|].
        rewrite <- app_assoc; apply Hleft; lia.
Qed.

Lemma re_search_found (p : str -> str -> bool) (s : str) (k : nat) :
  re_search p s = Some k ->
  k <= List.length s /\ matches_at p s k = true
  /\ forall j, j < k -> matches_at p s j = false.
Proof.
  unfold re_search, matches_at; intros H.
  apply search_from_found in H as [j [-> [Hj [Hm Hleft]]]].
  rewrite app_nil_r in Hm; repeat split; auto.
  intros j' Hlt; specialize (Hleft j' Hlt); now rewrite app_nil_r in Hleft.
Qed.

Lemma starts_with_firstn (w : str) (n : nat) (s : str) :
  starts_with w (firstn n s) = true -> starts_with w s = true.
Proof.
  revert n s; induction w as [|a w IH]; intros n s; [reflexivity|].
  destruct n as [|n], s as [|c t]; simpl; try discriminate.
  intros H; apply andb_true_iff in H as [-> H]; simpl; now apply IH in H.
Qed.

Lemma starts_with_firstn_enough (w : str) (n : nat) (s : str) :
  starts_with w s = true -> List.length w <= n ->
  starts_with w (firstn n s) = true.
Proof.
  revert n s; induction w as [|a w IH]; intros n s; [reflexivity|].
  destruct s as [|c t]; simpl; [discriminate|].
  destruct n as [|n]; [lia|]; simpl.
  intros H Hn; apply andb_true_iff in H as [-> H]; simpl; apply IH; auto; lia.
Qed.

Lemma starts_with_split (w s : str) :
  starts_with w s = true -> s = (w ++ skipn (List.length w) s)%list.
Proof.
  revert s; induction w as [|a w IH]; intros s; [reflexivity|].
  destruct s as [|c t]; simpl; [discriminate|].
  intros H; apply andb_true_iff in H as [Hc H].
  apply N.eqb_eq in Hc as ->; f_equal; now apply IH.
Qed.

Lemma skipn_firstn (j e : nat) (s : str) :
  skipn j (firstn e s) = firstn (e - j) (skipn j s).
Proof.
  revert e s; induction j as [|j IH]; intros e s.
  - now rewrite Nat.sub_0_r.
  - destruct s as [|c t].
    + now rewrite firstn_nil, !skipn_nil, firstn_nil.
    + destruct e as [|e]; [reflexivity | apply IH].
Qed.

(** The text up to the first terminator holds no terminator. *)
Lemma no_terminator_in_slice (alts : list str) (s : str) (e : nat) :
  Forall (fun w => w <> []) alts ->
  re_search (literals alts) s = Some e ->
  forall w j, In w alts -> occurs_within w (firstn e s) j = false.
Proof.
  intros Hne Hs w j Hw.
  apply re_search_found in Hs as [He [_ Hleft]].
  destruct (occurs_within w (firstn e s) j) eqn:E; [|reflexivity].
  unfold occurs_within in E; apply andb_true_iff in E as [Hfit Hp].
  apply Nat.leb_le in Hfit; rewrite length_firstn in Hfit.
  rewrite skipn_firstn in Hp; apply starts_with_firstn in Hp.
  assert (Hlen : 0 < List.length w).
  { rewrite Forall_forall in Hne; specialize (Hne w Hw).
    destruct w; [congruence | simpl; lia]. }
  assert (Hj : j < e) by lia.
  specialize (Hleft j Hj); unfold matches_at, literals in Hleft.
  assert (Ht : existsb (fun a => starts_with a (skipn j s)) alts = true)
    by (apply existsb_exists; eauto).
  congruence.
Qed.

(** X4.  On a text without U+0130, when a terminator follows the abstract,
    the abstract part of the best text is the text from "abstract" up to
    that terminator: its characters, in the lower case they have in
    [text.lower()], start with the word "abstract", and no terminator
    ("introduction", "keywords", a line starting with "1.") occurs in them.
    Likewise the introduction part, after its newline, starts with
    "introduction" and holds none of "methods", "related work",
    "background" or a line starting with "2.". *)
Theorem terminated_excerpts_stop_before_terminator
    (table : str -> N -> str -> N) (text : str) :
  dotless text = true ->
  (forall a e,
     re_search abstract_re (lower table text) = Some a ->
     re_search abstract_end_re (skipn a (lower table text)) = Some e ->
     let excerpt := abstract_part text (lower table text) in
     excerpt = firstn e (skipn a text)
     /\ List.length excerpt = e
     /\ List.length (lower_slice table text a e) = e
     /\ starts_with (of_string "abstract") (lower_slice table text a e) = true
     /\ forall w j, In w abstract_end_words ->
          occurs_within w (lower_slice table text a e) j = false)
  /\ (forall i e,
        re_search introduction_re (lower table text) = Some i ->
        re_search intro_end_re (skipn i (lower table text)) = Some e ->
        let excerpt := firstn e (skipn i text) in
        intro_part text (lower table text) = nl :: excerpt
        /\ List.length excerpt = e
        /\ List.length (lower_slice table text i e) = e
        /\ starts_with (of_string "introduction") (lower_slice table text i e)
           = true
        /\ forall w j, In w intro_end_words ->
             occurs_within w (lower_slice table text i e) j = false).
Proof.
  intros Hd.
  pose proof (length_lower_from table text [] Hd) as Hl.
  fold (lower table text) in Hl.
  split.
  - intros a e Ha He; cbv zeta.
    assert (Hpart : abstract_part text (lower table text)
                    = firstn e (skipn a text)).
    { unfold abstract_part; rewrite Ha, He; unfold slice; f_equal; lia. }
    rewrite Hpart; unfold lower_slice; rewrite (lower_tail_skipn table text a Hd).
    apply re_search_found in Ha as [Hale [Hma _]].
    unfold matches_at, abstract_re in Hma.
    apply andb_true_iff in Hma as [_ Hword].
    pose proof (re_search_found _ _ _ He) as [Hele [Hme Hleft]].
    rewrite length_skipn in Hele.
    assert (H8 : 8 <= e).
    { apply starts_with_split in Hword; simpl List.length in Hword.
      destruct (le_lt_dec 8 e) as [|Hlt]; [assumption|exfalso].
      unfold matches_at in Hme; rewrite Hword in Hme.
      do 8 (destruct e as [|e]; [vm_compute in Hme; discriminate|]); lia. }
    split; [reflexivity|].
    split; [rewrite length_firstn, length_skipn; lia|].
    split; [rewrite length_firstn, length_skipn; lia|].
    split; [now apply starts_with_firstn_enough|].
    apply no_terminator_in_slice; [|exact He].
    repeat constructor; discriminate.
  - intros i e Hi He; cbv zeta.
    assert (Hpart : intro_part text (lower table text)
                    = nl :: firstn e (skipn i text)).
    { unfold intro_part; rewrite Hi, He; unfold slice; do 2 f_equal; lia. }
    unfold lower_slice; rewrite (lower_tail_skipn table text i Hd).
    apply re_search_found in Hi as [Hile [Hmi _]].
    unfold matches_at, introduction_re, literals, existsb in Hmi.
    rewrite orb_false_r in Hmi.
    pose proof (re_search_found _ _ _ He) as [Hele [Hme Hleft]].
    rewrite length_skipn in Hele.
    assert (H12 : 12 <= e).
    { apply starts_with_split in Hmi; simpl List.length in Hmi.
      destruct (le_lt_dec 12 e) as [|Hlt]; [assumption|exfalso].
      unfold matches_at in Hme; rewrite Hmi in Hme.
      do 12 (destruct e as [|e]; [vm_compute in Hme; discriminate|]); lia. }
    split; [exact Hpart|].
    split; [rewrite length_firstn, length_skipn; lia|].
    split; [rewrite length_firstn, length_skipn; lia|].
    split; [now apply starts_with_firstn_enough|].
    apply no_terminator_in_slice; [|exact He].
    repeat constructor; discriminate.
Qed.

Lemma terminated_excerpts_stop_before_terminator_witness :
  abstract_part short_paper (lower latin1_table short_paper)
  = of_string "Abstract We study graphs." ++ [nl]
  /\ occurs_within (of_string "keywords")
       (lower_slice latin1_table short_paper 8 26) 3 = false.
Proof.
  destruct (terminated_excerpts_stop_before_terminator latin1_table short_paper
              eq_refl) as [Habs _].
  destruct (Habs 8 26 eq_refl eq_refl) as [Hpart [_ [_ [_ Hno]]]].
  split.
  - exact Hpart.
  - apply Hno; right; left; reflexivity.
Defined.

(** After nine U+0130 the indices found in the lower-cased text are nine
    characters late in the text: the abstract part starts inside the
    abstract and holds the terminator. *)
Example dotted_paper_abstract_part :
  abstract_part dotted_paper (lower latin1_table dotted_paper)
  = of_string "w keywords ".
Proof. vm_compute; reflexivity. Qed.

(** *** Texts of code points below 256

    On such a text the functions above compute what [PyStr] and [ParsePdf]
    compute on the string of the same characters. *)

Lemma of_string_cons (c : ascii) (s : string) :
  of_string (String c s) = N_of_ascii c :: of_string s.
Proof. reflexivity. Qed.

Lemma N_of_ascii_lower_char (before after : str) (c : ascii) :
  latin1_table before (N_of_ascii c) after = N_of_ascii (PyStr.lower_char c).
Proof.
  destruct c as [[] [] [] [] [] [] [] []]; vm_compute; reflexivity.
Qed.

Lemma N_of_ascii_below_256 (c : ascii) : (N_of_ascii c < 256)%N.
Proof.
  destruct c as [[] [] [] [] [] [] [] []]; vm_compute; reflexivity.
Qed.

Lemma N_of_ascii_eqb (a c : ascii) :
  N.eqb (N_of_ascii a) (N_of_ascii c) = if ascii_dec a c then true else false.
Proof.
  destruct (ascii_dec a c) as [->|Hne]; [apply N.eqb_refl|].
  apply N.eqb_neq; intros H; apply Hne.
  rewrite <- (ascii_N_embedding a), <- (ascii_N_embedding c); now rewrite H.
Qed.

Lemma lower_of_string (table : str -> N -> str -> N) (s : string) (before : str) :
  latin1_agrees table ->
  lower_from table before (of_string s) = of_string (PyStr.lower s).
Proof.
  intros Ht; revert before; induction s as [|c t IH]; intros before; [reflexivity|].
  rewrite of_string_cons; cbn [lower_from PyStr.lower]; unfold lower_cp.
  assert (Hc : N.eqb (N_of_ascii c) dotted_I = false).
  { apply N.eqb_neq; pose proof (N_of_ascii_below_256 c); unfold dotted_I; lia. }
  rewrite Hc, (Ht _ _ _ (N_of_ascii_below_256 c)), N_of_ascii_lower_char, IH.
  reflexivity.
Qed.

Lemma starts_with_of_string (sub s : string) :
  starts_with (of_string sub) (of_string s) = prefix sub s.
Proof.
  revert s; induction sub as [|a sub IH]; intros s; [now destruct s|].
  destruct s as [|c t]; [reflexivity|].
  rewrite !of_string_cons; cbn [starts_with prefix].
  rewrite N_of_ascii_eqb; destruct (ascii_dec a c); [apply IH | reflexivity].
Qed.

Lemma rfind_of_string (s sub : string) :
  rfind (of_string s) (of_string sub) = PyStr.rfind s sub.
Proof.
  induction s as [|c t IH].
  - cbn [PyStr.rfind]; rewrite <- starts_with_of_string; reflexivity.
  - cbn [PyStr.rfind]; rewrite <- starts_with_of_string, <- IH; reflexivity.
Qed.

Lemma length_of_string (s : string) : List.length (of_string s) = String.length s.
Proof. induction s as [|c t IH]; [reflexivity|]. rewrite of_string_cons; simpl; now rewrite IH. Qed.

Lemma firstn_of_string (n : nat) (s : string) :
  firstn n (of_string s) = of_string (PyStr.take n s).
Proof.
  revert s; induction n as [|n IH]; intros [|c t]; try reflexivity.
  rewrite of_string_cons; cbn [firstn PyStr.take]; now rewrite IH, of_string_cons.
Qed.

(** On a text of code points below 256, [clean_full_text] is the function
    of [ParsePdf]. *)
Lemma clean_full_text_of_string (table : str -> N -> str -> N) (s : string) :
  latin1_agrees table ->
  clean_full_text table (of_string s) = of_string (ParsePdf.clean_full_text s).
Proof.
  intros Ht; unfold clean_full_text, ParsePdf.clean_full_text, lower.
  rewrite (lower_of_string table s [] Ht).
  change references_marker with (of_string ParsePdf.references_marker).
  change bibliography_marker with (of_string ParsePdf.bibliography_marker).
  rewrite !rfind_of_string.
  destruct (negb _); [|reflexivity].
  unfold slice_to, PyStr.slice_to; rewrite length_of_string.
  destruct (_ <? 0)%Z; apply firstn_of_string.
Qed.

End ParsePdfUnicodeFacts.

(** ** Further facts about src/embed.py *)

Module EmbedMore.

Import PyStr ParsePdf Database Embed Similarity Vocabulary Vocabulary2.
Import ParsePdfFacts ParsePdfMore EmbedFacts SimilarityFacts.

Lemma append_cancel_l (a x y : string) : (a ++ x = a ++ y)%string -> x = y.
Proof. induction a; simpl; [auto | intros [= H]; auto]. Qed.

Lemma append_cancel_r (x y z : string) : (x ++ z = y ++ z)%string -> x = y.
Proof.
  revert y; induction x as [|c x IH]; intros [|d y] H; simpl in H.
  - reflexivity.
  - apply (f_equal String.length) in H; simpl in H; rewrite length_append in H; lia.
  - apply (f_equal String.length) in H; simpl in H; rewrite length_append in H; lia.
  - injection H as -> H; f_equal; now apply IH.
Qed.

Lemma paper_name_injective (a s1 s2 : string) :
  (a ++ "__" ++ s1 ++ ".pdf" = a ++ "__" ++ s2 ++ ".pdf")%string -> s1 = s2.
Proof.
  intros H; apply append_cancel_l, append_cancel_l in H.
  now apply append_cancel_r in H.
Qed.

Section BuildMore.

Variable encode : string -> vector.

Lemma records_written_map (pdf_files : list PdfFile) :
  records_written (build_multivector_database encode pdf_files)
  = map (process_pdf encode) pdf_files.
Proof.
  destruct pdf_files as [|f rest]; [reflexivity|].
  now rewrite build_multivector_database_map by discriminate.
Qed.

End BuildMore.

(** X5.  The records the builder writes for a corpus enumerated as two
    batches, one after the other, are the records of the first batch
    followed by the records of the second: each paper is processed on its
    own, and the order of the enumeration is kept. *)
Theorem build_of_batches (encode : string -> vector)
    (batch1 batch2 : list PdfFile) :
  records_written (build_multivector_database encode (batch1 ++ batch2))
  = records_written (build_multivector_database encode batch1)
    ++ records_written (build_multivector_database encode batch2).
Proof.
  destruct batch1 as [|f1 rest1]; [reflexivity|].
  destruct batch2 as [|f2 rest2].
  - rewrite app_nil_r.
    change (records_written (build_multivector_database encode []))
      with (@nil PaperRecord).
    now rewrite app_nil_r.
  - rewrite !build_multivector_database_map by discriminate.
    cbn [records_written]; apply map_app.
Qed.

(** X6.  Files that differ in folder or in stem give records that differ
    in author or in paper name: when the enumerated (folder, stem) pairs
    are distinct, so are the (author, paper) pairs of the database, and
    within one author the paper names are distinct. *)
Theorem distinct_files_give_distinct_records (encode : string -> vector)
    (pdf_files : list PdfFile) :
  NoDup (map (fun f => (parent_name f, stem f)) pdf_files) ->
  NoDup (map (fun r => (author r, paper r))
             (records_written (build_multivector_database encode pdf_files)))
  /\ forall f1 f2,
       parent_name f1 = parent_name f2 ->
       paper (process_pdf encode f1) = paper (process_pdf encode f2) ->
       stem f1 = stem f2.
Proof.
  intros Hnd; split.
  - rewrite records_written_map, map_map.
    induction pdf_files as [|f rest IH]; simpl; [constructor|].
    inversion Hnd as [|? ? Hf Hrest]; subst.
    constructor; [|now apply IH].
    intros Hin; apply Hf.
    apply in_map_iff in Hin as [g [Hg Hin]].
    apply in_map_iff; exists g; split; [|assumption].
    unfold process_pdf in Hg; cbn [author paper] in Hg.
    injection Hg as Ha Hp; rewrite Ha in Hp.
    apply paper_name_injective in Hp; congruence.
  - intros f1 f2 Ha Hp.
    unfold process_pdf in Hp; cbn [paper] in Hp; rewrite Ha in Hp.
    now apply paper_name_injective in Hp.
Qed.

Lemma distinct_files_give_distinct_records_witness :
  NoDup (map (fun r => (author r, paper r))
             (records_written
                (build_multivector_database (fun _ => [1%R; 0%R]) sample_corpus))).
Proof.
  apply (distinct_files_give_distinct_records (fun _ => [1%R; 0%R]) sample_corpus).
  repeat constructor; simpl; intuition discriminate.
Defined.

Lemma built_database_well_formed (encode : string -> vector)
    (embedding_dim : nat) (pdf_files : list PdfFile)
    (database : list PaperRecord) (best_query full_query : string) :
  (0 < embedding_dim)%nat ->
  (forall text, List.length (encode text) = embedding_dim) ->
  build_multivector_database encode pdf_files = Some database ->
  well_formed (encode best_query) (encode full_query) embedding_dim database = true.
Proof.
  intros Hd Henc Hb.
  assert (Hdb : database = map (process_pdf encode) pdf_files).
  { pose proof (records_written_map encode pdf_files) as H.
    now rewrite Hb in H. }
  unfold well_formed.
  rewrite !Henc, Nat.eqb_refl, (proj2 (Nat.ltb_lt _ _) Hd); cbn [andb].
  apply forallb_forall; intros r Hr; rewrite Hdb in Hr.
  apply in_map_iff in Hr as [f [<- _]].
  unfold process_pdf; cbn [best_text_embedding full_text_embedding].
  assert (He : forall t, has_dim embedding_dim (embed_text encode t) = true).
  { intros [s|]; [|reflexivity]; unfold embed_text.
    destruct (truthy s); [|reflexivity].
    simpl; rewrite Henc; apply Nat.eqb_refl. }
  now rewrite !He.
Qed.

(** X7.  A database written by the builder can be searched with vectors of
    the same model: when the model embeds every text in a fixed positive
    dimension, [find_similar_authors] returns a table for every query text
    pair and every [top_k], and never raises. *)
Theorem built_database_is_searchable (encode : string -> vector)
    (embedding_dim : nat) (pdf_files : list PdfFile)
    (database : list PaperRecord) (best_query full_query : string) (top_k : Z) :
  (0 < embedding_dim)%nat ->
  (forall text, List.length (encode text) = embedding_dim) ->
  build_multivector_database encode pdf_files = Some database ->
  well_formed (encode best_query) (encode full_query) embedding_dim database = true
  /\ exists rows,
       find_similar_authors (encode best_query) (encode full_query)
                            embedding_dim database top_k = Ok rows.
Proof.
  intros Hd Henc Hb.
  assert (Hne : database <> [])
    by (eapply build_multivector_database_nonempty; eassumption).
  pose proof (built_database_well_formed encode embedding_dim pdf_files database
                best_query full_query Hd Henc Hb) as Hwf.
  split; [exact Hwf|].
  destruct (paper_scores_ok _ _ _ _ Hne Hwf) as [A [B [Hs _]]].
  eexists; eapply find_similar_authors_steps; exact Hs.
Qed.

Lemma built_database_is_searchable_witness :
  exists rows,
    find_similar_authors [1%R; 0%R] [1%R; 0%R] 2
      [mkRecord "alice" "alice__broken.pdf" None None;
       mkRecord "bob" "bob__thesis.pdf" (Some [1%R; 0%R]) (Some [1%R; 0%R])]
      5 = Ok rows.
Proof.
  apply (built_database_is_searchable (fun _ => [1%R; 0%R]) 2 sample_corpus
           _ EmptyString EmptyString 5).
  - lia.
  - reflexivity.
  - vm_compute; reflexivity.
Defined.

End EmbedMore.

(** ** Further facts about src/similarity.py *)

Module SimilarityMore.

Import Database Similarity Vocabulary Vocabulary2 SimilarityFacts.
Local Open Scope R_scope.

(** *** When the call returns *)

Lemma result_cases {A : Type} (r : result A) :
  (exists a, r = Ok a) \/ r = ValueError.
Proof. destruct r; eauto. Qed.

Lemma cosine_similarity_checks (x : vector) (rows : list vector) (scores : list R) :
  cosine_similarity x (Arr2 rows) = Ok scores ->
  List.length x <> 0%nat /\ Forall (fun y => List.length y = List.length x) rows.
Proof.
  simpl. destruct (Nat.eqb_spec (List.length x) 0); [discriminate|].
  destruct (forallb (fun y => Nat.eqb (List.length y) (List.length x)) rows) eqn:E;
    [|discriminate].
  intros _; split; [assumption | now apply forallb_length_eq].
Qed.

Lemma paper_scores_consistent (q_best q_full : vector) (d : nat)
    (database : list PaperRecord) (A B F : list R) :
  paper_scores q_best q_full d database = Ok (A, B, F) ->
  consistent q_best q_full d database = true.
Proof.
  intros Hs; pose proof (paper_scores_inv _ _ _ _ _ _ _ Hs) as [Hne _].
  revert Hs; unfold paper_scores; cbv zeta.
  destruct (np_array (map (fun record => embedding_or_zeros d (best_text_embedding record)) database))
    as [MA|] eqn:EA; [|discriminate].
  cbn [bind].
  destruct (np_array (map (fun record => embedding_or_zeros d (full_text_embedding record)) database))
    as [MB|] eqn:EB; [|discriminate].
  cbn [bind].
  apply np_array_inv in EA as [[Hnil _] | [_ ->]];
    [apply map_eq_nil in Hnil; congruence|].
  apply np_array_inv in EB as [[Hnil _] | [_ ->]];
    [apply map_eq_nil in Hnil; congruence|].
  destruct (cosine_similarity q_best (Arr2 _)) as [sA|] eqn:ESA; [|discriminate].
  cbn [bind].
  destruct (cosine_similarity q_full (Arr2 _)) as [sB|] eqn:ESB; [|discriminate].
  intros _.
  apply cosine_similarity_checks in ESA as [HqA HA].
  apply cosine_similarity_checks in ESB as [HqB HB].
  unfold consistent; destruct database as [|r0 rest]; [congruence|].
  apply Nat.eqb_neq in HqA, HqB; rewrite HqA, HqB; cbn [negb andb].
  apply forallb_forall; intros r Hr.
  rewrite Forall_forall in HA, HB.
  apply andb_true_iff; split; apply Nat.eqb_eq;
    [apply HA | apply HB]; apply in_map_iff; eauto.
Qed.

Lemma consistent_paper_scores (q_best q_full : vector) (d : nat)
    (database : list PaperRecord) :
  consistent q_best q_full d database = true ->
  exists A B, paper_scores q_best q_full d database = Ok (A, B, np_maximum A B).
Proof.
  intros Hc; unfold consistent in Hc.
  destruct database as [|r0 rest]; [discriminate|].
  apply andb_true_iff in Hc as [Hc Hall].
  apply andb_true_iff in Hc as [HqA HqB].
  apply negb_true_iff, Nat.eqb_neq in HqA, HqB.
  rewrite forallb_forall in Hall.
  set (database := r0 :: rest) in *.
  assert (HA : Forall (fun y => List.length y = List.length q_best)
                 (map (fun r => embedding_or_zeros d (best_text_embedding r)) database)).
  { apply Forall_map, Forall_forall; intros r Hr.
    apply Hall, andb_true_iff in Hr as [Hr _]; now apply Nat.eqb_eq. }
  assert (HB : Forall (fun y => List.length y = List.length q_full)
                 (map (fun r => embedding_or_zeros d (full_text_embedding r)) database)).
  { apply Forall_map, Forall_forall; intros r Hr.
    apply Hall, andb_true_iff in Hr as [_ Hr]; now apply Nat.eqb_eq. }
  unfold paper_scores; cbv zeta.
  rewrite (np_array_uniform _ (List.length q_best)),
          (np_array_uniform _ (List.length q_full)); auto; try discriminate.
  cbn [bind].
  rewrite !cosine_similarity_ok by assumption.
  cbn [bind]; eauto.
Qed.

(** X8.  [find_similar_authors] returns a table exactly when the database
    has a record, both query vectors have an entry, and every embedding of
    the database (zeros of the model's dimension where absent) is as long
    as the query of its channel; in every other case it raises. *)
Theorem find_similar_authors_returns_iff_consistent
    (query_best_vector query_full_vector : vector) (embedding_dim : nat)
    (database : list PaperRecord) (top_k : Z) :
  ((exists rows,
      find_similar_authors query_best_vector query_full_vector embedding_dim
                           database top_k = Ok rows)
   <-> consistent query_best_vector query_full_vector embedding_dim database = true)
  /\ (find_similar_authors query_best_vector query_full_vector embedding_dim
                          database top_k = ValueError
      <-> consistent query_best_vector query_full_vector embedding_dim database
          = false).
Proof.
  assert (Hok : consistent query_best_vector query_full_vector embedding_dim database
                = true ->
                exists rows,
                  find_similar_authors query_best_vector query_full_vector
                    embedding_dim database top_k = Ok rows).
  { intros Hc; apply consistent_paper_scores in Hc as [A [B Hs]].
    eexists; eapply find_similar_authors_steps; exact Hs. }
  assert (Hinv : forall rows,
            find_similar_authors query_best_vector query_full_vector
              embedding_dim database top_k = Ok rows ->
            consistent query_best_vector query_full_vector embedding_dim database
            = true).
  { intros rows Hf; apply find_similar_authors_inv in Hf as [A [B [F [Hs _]]]].
    eapply paper_scores_consistent; exact Hs. }
  split; split.
  - intros [rows Hf]; eauto.
  - exact Hok.
  - intros Hf.
    apply not_true_is_false; intros Hc.
    destruct (Hok Hc) as [rows Hr]; congruence.
  - intros Hc.
    destruct (result_cases
                (find_similar_authors query_best_vector query_full_vector
                   embedding_dim database top_k)) as [[rows E]|E];
      [apply Hinv in E; congruence | exact E].
Qed.


(** *** The rows of a table *)

Lemma NoDup_firstn {A : Type} (n : nat) (l : list A) :
  NoDup l -> NoDup (firstn n l).
Proof.
  revert l; induction n as [|n IH]; intros [|x l] H; simpl; try constructor.
  - inversion H as [|? ? Hx Hl]; subst.
    intros Hin; apply Hx; now apply (firstn_incl n).
  - inversion H; auto.
Qed.

Lemma head_firstn {A : Type} (n : Z) (l : list A) :
  exists m, head n l = firstn m l.
Proof. unfold head; destruct (n <? 0)%Z; eauto. Qed.

Lemma returned_rows_distinct (q_best q_full : vector) (d : nat)
    (database : list PaperRecord) (top_k : Z) (rows : list AuthorScore) :
  find_similar_authors q_best q_full d database top_k = Ok rows ->
  NoDup (map row_author rows) /\ max_descending rows.
Proof.
  intros Hf.
  destruct (find_similar_authors_inv _ _ _ _ _ _ Hf) as [A [B [F [Hs ->]]]].
  destruct (paper_scores_lengths _ _ _ _ _ _ _ Hs) as [_ [_ HlF]].
  destruct (author_table_spec database F HlF) as [Hperm [Hsorted _]].
  destruct (head_firstn top_k (author_table database F)) as [m ->].
  split; [|now apply firstn_max_descending].
  rewrite <- firstn_map; apply NoDup_firstn.
  eapply Permutation_NoDup; [apply Permutation_sym, Hperm|].
  apply NoDup_nodup.
Qed.

(** X9.  Whatever [top_k] is, a table returned by [find_similar_authors]
    has at most one row per author, only authors of the database, no more
    rows than the database has distinct authors, and is in descending order
    of [max]. *)
Theorem returned_rows_are_distinct_authors
    (query_best_vector query_full_vector : vector) (embedding_dim : nat)
    (database : list PaperRecord) (top_k : Z) (rows : list AuthorScore) :
  find_similar_authors query_best_vector query_full_vector embedding_dim
                       database top_k = Ok rows ->
  NoDup (map row_author rows)
  /\ incl (map row_author rows) (map author database)
  /\ (List.length rows <= List.length (distinct_authors database))%nat
  /\ max_descending rows.
Proof.
  intros Hf.
  destruct (returned_rows_distinct _ _ _ _ _ _ Hf) as [Hnd Hsorted].
  destruct (find_similar_authors_inv _ _ _ _ _ _ Hf) as [A [B [F [Hs ->]]]].
  destruct (paper_scores_lengths _ _ _ _ _ _ _ Hs) as [_ [_ HlF]].
  destruct (author_table_spec database F HlF) as [Hperm _].
  destruct (head_firstn top_k (author_table database F)) as [m Hm].
  rewrite Hm in *.
  split; [exact Hnd|].
  split.
  - intros a Ha; rewrite <- firstn_map in Ha; apply firstn_incl in Ha.
    eapply Permutation_in in Ha; [|exact Hperm].
    unfold distinct_authors in Ha; now apply nodup_In in Ha.
  - split; [|exact Hsorted].
    rewrite length_firstn, (length_author_table database F HlF); lia.
Qed.

Lemma returned_rows_are_distinct_authors_witness :
  exists rows,
    find_similar_authors sample_query sample_query 2 ten_authors (-3) = Ok rows
    /\ NoDup (map row_author rows).
Proof.
  destruct (paper_scores_ok sample_query sample_query 2 ten_authors)
    as [A [B [Hs _]]]; [discriminate | reflexivity|].
  pose proof (find_similar_authors_steps _ _ _ _ (-3)%Z _ _ _ Hs) as Hf.
  eexists; split; [exact Hf|].
  apply (returned_rows_are_distinct_authors _ _ _ _ _ _ Hf).
Defined.

(** X14.  Asking for more reviewers only adds rows below the ones already
    returned: for [0 <= k1 <= k2], the table for [top_k = k1] is the first
    [k1] rows of the table for [top_k = k2]. *)
Theorem larger_top_k_extends_table
    (query_best_vector query_full_vector : vector) (embedding_dim : nat)
    (database : list PaperRecord) (k1 k2 : Z) (rows1 rows2 : list AuthorScore) :
  (0 <= k1 <= k2)%Z ->
  find_similar_authors query_best_vector query_full_vector embedding_dim
                       database k1 = Ok rows1 ->
  find_similar_authors query_best_vector query_full_vector embedding_dim
                       database k2 = Ok rows2 ->
  rows1 = firstn (Z.to_nat k1) rows2.
Proof.
  intros Hk H1 H2.
  destruct (find_similar_authors_inv _ _ _ _ _ _ H1) as [A [B [F [Hs ->]]]].
  destruct (find_similar_authors_inv _ _ _ _ _ _ H2) as [A' [B' [F' [Hs' ->]]]].
  rewrite Hs in Hs'; injection Hs' as <- <- <-.
  rewrite !head_positive by lia.
  rewrite firstn_firstn; f_equal; lia.
Qed.

Lemma larger_top_k_extends_table_witness :
  exists rows1 rows2,
    find_similar_authors sample_query sample_query 2 ten_authors 3 = Ok rows1
    /\ find_similar_authors sample_query sample_query 2 ten_authors 7 = Ok rows2
    /\ rows1 = firstn 3 rows2.
Proof.
  destruct (paper_scores_ok sample_query sample_query 2 ten_authors)
    as [A [B [Hs _]]]; [discriminate | reflexivity|].
  pose proof (find_similar_authors_steps _ _ _ _ 3%Z _ _ _ Hs) as H1.
  pose proof (find_similar_authors_steps _ _ _ _ 7%Z _ _ _ Hs) as H2.
  eexists _, _; split; [exact H1|]. split; [exact H2|].
  apply (larger_top_k_extends_table _ _ _ _ 3%Z 7%Z _ _ ltac:(lia) H1 H2).
Defined.

(** *** Papers without an embedding *)

Lemma paper_scores_nth (q_best q_full : vector) (d : nat)
    (database : list PaperRecord) (A B F : list R) (i : nat) (r : PaperRecord) :
  paper_scores q_best q_full d database = Ok (A, B, F) ->
  nth_error database i = Some r ->
  nth i A 0 = cosine q_best (embedding_or_zeros d (best_text_embedding r))
  /\ nth i B 0 = cosine q_full (embedding_or_zeros d (full_text_embedding r))
  /\ nth i F 0 = Rmax (nth i A 0) (nth i B 0).
Proof.
  intros Hs Hi.
  destruct (paper_scores_lengths _ _ _ _ _ _ _ Hs) as [HlA [HlB _]].
  destruct (paper_scores_inv _ _ _ _ _ _ _ Hs) as [_ [HA [HB HF]]].
  assert (Hn : forall (f : PaperRecord -> R), nth i (map f database) 0 = f r).
  { intros f; revert i Hi; clear; induction database as [|y l IH];
      intros [|i]; simpl; try discriminate; [now intros [= ->] | apply IH]. }
  split; [rewrite HA at 1; apply Hn|].
  split; [rewrite HB at 1; apply Hn|].
  rewrite HF; apply nth_np_maximum; congruence.
Qed.

Lemma score_in_author_group (database : list PaperRecord) (F : list R)
    (i : nat) (r : PaperRecord) :
  List.length F = List.length database ->
  nth_error database i = Some r ->
  In (nth i F 0) (scores_of_author database F (author r)).
Proof.
  unfold scores_of_author.
  revert F i; induction database as [|y l IH]; intros [|s F] [|i] Hl Hi;
    simpl in *; try discriminate.
  - injection Hi as ->; rewrite String.eqb_refl; now left.
  - destruct (String.eqb (author y) (author r)); simpl;
      [right|]; apply IH; auto; lia.
Qed.

(** X10.  A paper that lacks an embedding never scores below zero: its
    final score is the maximum of 0 and the score of the other channel, and
    it is exactly 0 when both embeddings are absent; the [max] of its
    author, in any row returned, is then not below zero either. *)
Theorem degraded_paper_scores_at_least_zero
    (query_best_vector query_full_vector : vector) (embedding_dim : nat)
    (database : list PaperRecord) (A B F : list R) (i : nat)
    (record : PaperRecord) :
  paper_scores query_best_vector query_full_vector embedding_dim database
  = Ok (A, B, F) ->
  nth_error database i = Some record ->
  best_text_embedding record = None \/ full_text_embedding record = None ->
  0 <= nth i F 0
  /\ (best_text_embedding record = None -> nth i F 0 = Rmax 0 (nth i B 0))
  /\ (full_text_embedding record = None -> nth i F 0 = Rmax (nth i A 0) 0)
  /\ (best_text_embedding record = None -> full_text_embedding record = None ->
      nth i F 0 = 0)
  /\ (forall top_k rows row,
        find_similar_authors query_best_vector query_full_vector embedding_dim
                             database top_k = Ok rows ->
        In row rows -> row_author row = author record -> 0 <= row_max row).
Proof.
  intros Hs Hi Habs.
  destruct (paper_scores_nth _ _ _ _ _ _ _ _ _ Hs Hi) as [HA [HB HF]].
  assert (HA0 : best_text_embedding record = None -> nth i A 0 = 0)
    by (intros H; rewrite HA, H; apply cosine_zeros).
  assert (HB0 : full_text_embedding record = None -> nth i B 0 = 0)
    by (intros H; rewrite HB, H; apply cosine_zeros).
  assert (Hpos : 0 <= nth i F 0).
  { rewrite HF; destruct Habs as [H|H];
      [rewrite (HA0 H); apply Rmax_l | rewrite (HB0 H); apply Rmax_r]. }
  split; [exact Hpos|].
  split; [intros H; now rewrite HF, (HA0 H)|].
  split; [intros H; now rewrite HF, (HB0 H)|].
  split.
  - intros H1 H2; rewrite HF, (HA0 H1), (HB0 H2).
    apply Rmax_left; lra.
  - intros top_k rows row Hf Hin Ha.
    destruct (find_similar_authors_inv _ _ _ _ _ _ Hf) as [A' [B' [F' [Hs' ->]]]].
    rewrite Hs in Hs'; injection Hs' as <- <- <-.
    destruct (paper_scores_lengths _ _ _ _ _ _ _ Hs) as [_ [_ HlF]].
    destruct (author_table_spec database F HlF) as [_ [_ Hrows]].
    rewrite Forall_forall in Hrows.
    apply head_incl, Hrows in Hin; cbv zeta in Hin.
    destruct Hin as [_ [_ [_ Hmax]]].
    rewrite Hmax, Ha.
    eapply Rle_trans; [exact Hpos|].
    apply series_max_ge, score_in_author_group; assumption.
Qed.

Lemma degraded_paper_scores_at_least_zero_witness :
  exists A B F,
    paper_scores sample_query sample_query 2 two_authors = Ok (A, B, F)
    /\ 0 <= nth 0 F 0.
Proof.
  destruct (paper_scores_ok sample_query sample_query 2 two_authors)
    as [A [B [Hs _]]]; [discriminate | reflexivity|].
  exists A, B, (np_maximum A B); split; [exact Hs|].
  apply (degraded_paper_scores_at_least_zero _ _ _ _ _ _ _ 0%nat
           (focused_only "alice") Hs); [reflexivity | now right].
Defined.


(** *** Counts *)

Lemma list_sum_cons (x : nat) (l : list nat) :
  list_sum (x :: l) = (x + list_sum l)%nat.
Proof. reflexivity. Qed.

Lemma list_sum_count_cons (x : string) (l keys : list string) :
  list_sum (map (count_occ string_dec (x :: l)) keys)
  = (list_sum (map (count_occ string_dec l) keys) + count_occ string_dec keys x)%nat.
Proof.
  induction keys as [|k keys IH]; [reflexivity|].
  rewrite !map_cons, !list_sum_cons, IH; cbn [count_occ].
  destruct (string_dec x k) as [->|Hne].
  - destruct (string_dec k k); [lia | congruence].
  - destruct (string_dec k x); [congruence | lia].
Qed.

Lemma list_sum_counts (l : list string) :
  list_sum (map (count_occ string_dec l) (nodup string_dec l)) = List.length l.
Proof.
  induction l as [|x l IH]; [reflexivity|].
  cbn [nodup]; destruct (in_dec string_dec x l) as [Hin|Hnin].
  - rewrite list_sum_count_cons, IH.
    assert (count_occ string_dec (nodup string_dec l) x = 1%nat).
    { pose proof (proj1 (NoDup_count_occ string_dec _) (NoDup_nodup string_dec l) x).
      pose proof (proj1 (count_occ_In string_dec (nodup string_dec l) x)
                        (proj2 (nodup_In string_dec l x) Hin)).
      lia. }
    simpl; lia.
  - rewrite map_cons, list_sum_cons, list_sum_count_cons, IH.
    assert (count_occ string_dec (nodup string_dec l) x = 0%nat).
    { apply count_occ_not_In; now rewrite nodup_In. }
    cbn [count_occ]; destruct (string_dec x x); [|congruence].
    rewrite (proj1 (count_occ_not_In string_dec l x) Hnin); simpl; lia.
Qed.

Lemma list_sum_firstn (n : nat) (l : list nat) :
  (list_sum (firstn n l) <= list_sum l)%nat.
Proof.
  revert l; induction n as [|n IH]; intros [|x l]; cbn [firstn];
    rewrite ?list_sum_cons; try (simpl; lia).
  specialize (IH l); lia.
Qed.

Lemma author_table_counts (database : list PaperRecord) (F : list R) :
  List.length F = List.length database ->
  list_sum (map row_count (author_table database F)) = List.length database.
Proof.
  intros HlF.
  destruct (author_table_spec database F HlF) as [Hperm [_ Hrows]].
  assert (Hc : map row_count (author_table database F)
               = map (count_occ string_dec (map author database))
                     (map row_author (author_table database F))).
  { rewrite map_map; apply map_ext_in; intros row Hin.
    rewrite Forall_forall in Hrows; apply Hrows in Hin; cbv zeta in Hin.
    destruct Hin as [_ [_ [Hcount _]]].
    rewrite Hcount; now apply length_scores_of_author. }
  rewrite Hc.
  rewrite (Permutation_list_sum
             (Permutation_map (count_occ string_dec (map author database)) Hperm)).
  unfold distinct_authors; rewrite list_sum_counts; apply length_map.
Qed.

(** X12.  The [count] column adds up to the number of records: over the
    rows returned it never exceeds the size of the database, and when
    [top_k] is at least the number of distinct authors it equals it, so
    every paper, degraded or not, is counted once. *)
Theorem counts_add_up_to_database_size
    (query_best_vector query_full_vector : vector) (embedding_dim : nat)
    (database : list PaperRecord) (top_k : Z) (rows : list AuthorScore) :
  find_similar_authors query_best_vector query_full_vector embedding_dim
                       database top_k = Ok rows ->
  (list_sum (map row_count rows) <= List.length database)%nat
  /\ ((Z.of_nat (List.length (distinct_authors database)) <= top_k)%Z ->
      list_sum (map row_count rows) = List.length database).
Proof.
  intros Hf.
  destruct (find_similar_authors_inv _ _ _ _ _ _ Hf) as [A [B [F [Hs ->]]]].
  destruct (paper_scores_lengths _ _ _ _ _ _ _ Hs) as [_ [_ HlF]].
  pose proof (author_table_counts database F HlF) as Hsum.
  split.
  - destruct (head_firstn top_k (author_table database F)) as [m ->].
    rewrite <- firstn_map, <- Hsum; apply list_sum_firstn.
  - intros Hk; rewrite head_positive by lia.
    rewrite firstn_all2; [exact Hsum|].
    rewrite (length_author_table database F HlF); lia.
Qed.

Lemma counts_add_up_to_database_size_witness :
  exists rows,
    find_similar_authors sample_query sample_query 2 ten_authors 20 = Ok rows
    /\ list_sum (map row_count rows) = 10%nat.
Proof.
  destruct (paper_scores_ok sample_query sample_query 2 ten_authors)
    as [A [B [Hs _]]]; [discriminate | reflexivity|].
  pose proof (find_similar_authors_steps _ _ _ _ 20%Z _ _ _ Hs) as Hf.
  eexists; split; [exact Hf|].
  apply (counts_add_up_to_database_size _ _ _ _ _ _ Hf).
  vm_compute; discriminate.
Defined.

End SimilarityMore.

(** ** Facts about app_streamlit.py *)

Module AppFacts.

Import PyStr ParsePdf Database Embed Similarity App Vocabulary Vocabulary2.
Import ParsePdfFacts ParsePdfMore EmbedFacts EmbedMore SimilarityFacts SimilarityMore.
Local Open Scope R_scope.

Lemma insert_desc_by_perm (key : AuthorScore -> R) (x : AuthorScore)
    (l : list AuthorScore) :
  Permutation (x :: l) (insert_desc_by key x l).
Proof.
  induction l as [|y rest IH]; simpl; [apply Permutation_refl|].
  destruct (Rle_dec (key y) (key x)); [apply Permutation_refl|].
  eapply perm_trans; [apply perm_swap | now apply perm_skip].
Qed.

Lemma sort_values_by_perm (key : AuthorScore -> R) (l : list AuthorScore) :
  Permutation l (sort_values_by key l).
Proof.
  induction l as [|x l IH]; simpl; [apply Permutation_refl|].
  eapply perm_trans; [apply perm_skip, IH | apply insert_desc_by_perm].
Qed.

Lemma insert_desc_by_sorted (key : AuthorScore -> R) (x : AuthorScore)
    (l : list AuthorScore) :
  descending_by key l -> descending_by key (insert_desc_by key x l).
Proof.
  unfold descending_by; induction l as [|y rest IH]; intros Hs; simpl.
  - constructor; constructor.
  - inversion Hs as [|? ? Hrest Hy]; subst.
    destruct (Rle_dec (key y) (key x)) as [Hle|Hgt].
    + constructor; [assumption|].
      constructor; [assumption|].
      eapply Forall_impl; [|exact Hy]; simpl; intros z Hz; lra.
    + constructor; [now apply IH|].
      eapply Permutation_Forall; [apply insert_desc_by_perm|].
      constructor; [lra | assumption].
Qed.

Lemma sort_values_by_sorted (key : AuthorScore -> R) (l : list AuthorScore) :
  descending_by key (sort_values_by key l).
Proof.
  induction l as [|x l IH]; simpl; [constructor | now apply insert_desc_by_sorted].
Qed.

Lemma falsy_iff (text : option string) :
  falsy text = true <-> text = None \/ text = Some EmptyString.
Proof.
  destruct text as [[|c s]|]; simpl; split; auto; try discriminate;
    intros [H|H]; discriminate.
Qed.

(** X15.  The table the page shows is the table of [find_similar_authors]
    for the query texts of the upload (the empty text where one is
    missing), put in descending order of the chosen column: its rows are
    the [top_k] authors by [max] whatever the ranking method, so ranking by
    [mean] reorders them and brings in no other author. *)
Theorem shown_table_is_top_k_by_max_reordered
    (encode : string -> vector) (embedding_dim : nat)
    (database : list PaperRecord) (uploaded : Document) (top_k : Z)
    (ranking_method : RankingMethod) (shown : list AuthorScore) :
  find_reviewers encode embedding_dim database uploaded top_k ranking_method
  = Recommended shown ->
  exists rows,
    find_similar_authors
      (encode (or_empty (best_text (extract_multivector_text uploaded))))
      (encode (or_empty (full_text (extract_multivector_text uploaded))))
      embedding_dim database top_k = Ok rows
    /\ Permutation rows shown
    /\ descending_by (column ranking_method) shown
    /\ max_descending rows
    /\ NoDup (map row_author shown).
Proof.
  unfold find_reviewers; cbv zeta.
  destruct (falsy (best_text (extract_multivector_text uploaded))
            && falsy (full_text (extract_multivector_text uploaded)));
    [discriminate|].
  destruct (find_similar_authors _ _ embedding_dim database top_k)
    as [rows|] eqn:Hf; [|discriminate].
  intros [= <-]; exists rows.
  destruct (returned_rows_distinct _ _ _ _ _ _ Hf) as [Hnd Hsorted].
  split; [reflexivity|].
  split; [apply sort_values_by_perm|].
  split; [apply sort_values_by_sorted|].
  split; [exact Hsorted|].
  eapply Permutation_NoDup; [|exact Hnd].
  apply Permutation_map, sort_values_by_perm.
Qed.

Lemma shown_table_is_top_k_by_max_reordered_witness :
  exists shown rows,
    find_reviewers unit_encoder 2 two_authors (Some ["some text"%string]) 5 by_mean
    = Recommended shown
    /\ Permutation rows shown
    /\ descending_by row_mean shown.
Proof.
  destruct (paper_scores_ok [1; 0] [1; 0] 2 two_authors)
    as [A [B [Hs _]]]; [discriminate | reflexivity|].
  pose proof (find_similar_authors_steps _ _ _ _ 5%Z _ _ _ Hs) as Hf.
  assert (Hv : find_reviewers unit_encoder 2 two_authors
                 (Some ["some text"%string]) 5 by_mean
               = Recommended (sort_values_by row_mean
                                (head 5 (author_table two_authors (np_maximum A B))))).
  { unfold find_reviewers; cbv zeta.
    change (falsy _ && falsy _) with false; cbv iota.
    change (unit_encoder _) with ([1; 0] : vector).
    now rewrite Hf. }
  destruct (shown_table_is_top_k_by_max_reordered _ _ _ _ _ _ _ Hv)
    as [rows [_ [Hp [Hd _]]]].
  eexists _, rows; split; [exact Hv|]. split; assumption.
Defined.

(** X16.  The page reports that no text could be extracted exactly when
    the upload cannot be read, or every page of it is blank, or its best
    text is absent (fewer than 100 tokens of abstract and introduction) and
    cleaning leaves nothing of its text; in every other case the search is
    run. *)
Theorem failed_to_extract_iff
    (encode : string -> vector) (embedding_dim : nat)
    (database : list PaperRecord) (uploaded : Document) (top_k : Z)
    (ranking_method : RankingMethod) :
  find_reviewers encode embedding_dim database uploaded top_k ranking_method
  = FailedToExtract
  <-> uploaded = None
      \/ exists pages,
           uploaded = Some pages
           /\ (forallb all_space pages = true
               \/ ((tokens (abstract_intro_text (read_pages pages)) < 100)%nat
                   /\ clean_full_text (read_pages pages) = EmptyString)).
Proof.
  unfold find_reviewers; cbv zeta.
  destruct uploaded as [pages|].
  - destruct (forallb all_space pages) eqn:Hblank.
    + assert (Hn : full_text (extract_multivector_text (Some pages)) = None).
      { apply full_text_none_iff; right; eauto. }
      assert (Hb : best_text (extract_multivector_text (Some pages)) = None).
      { rewrite best_text_spec.
        rewrite <- all_space_read_pages in Hblank.
        now rewrite (abstract_intro_text_all_space _ Hblank). }
      rewrite Hn, Hb; cbn [falsy andb]; split; [|reflexivity].
      intros _; right; exists pages; auto.
    + assert (Hfull : full_text (extract_multivector_text (Some pages))
                      = Some (clean_full_text (read_pages pages))).
      { apply full_text_spec; now rewrite all_space_read_pages. }
      rewrite Hfull, best_text_spec.
      destruct (Nat.ltb_spec (tokens (abstract_intro_text (read_pages pages))) 100)
        as [Hlt|Hge].
      * cbn [falsy andb].
        destruct (clean_full_text (read_pages pages)) as [|c s] eqn:Hc; cbn [truthy negb].
        -- split; [|reflexivity]. intros _; right; exists pages; split; auto.
        -- destruct (find_similar_authors _ _ embedding_dim database top_k);
             split; try discriminate;
             intros [H | [pages' [[= <-] [H | [_ H]]]]]; congruence.
      * assert (Hbt : falsy (Some (abstract_intro_text (read_pages pages))) = false).
        { unfold tokens in Hge; simpl.
          destruct (abstract_intro_text (read_pages pages)); [simpl in Hge; lia|reflexivity]. }
        rewrite Hbt; cbn [andb].
        destruct (find_similar_authors _ _ embedding_dim database top_k);
          split; try discriminate;
          intros [H | [pages' [[= <-] [H | [H _]]]]]; try congruence; lia.
  - cbn; split; auto.
Qed.

(** X17.  With a database written by the builder and the same model, whose
    embeddings all have one positive dimension, the search of the page
    never raises: the page shows the extraction error or a table. *)
Theorem page_never_raises_on_built_database
    (encode : string -> vector) (embedding_dim : nat)
    (pdf_files : list PdfFile) (database : list PaperRecord)
    (uploaded : Document) (top_k : Z) (ranking_method : RankingMethod) :
  (0 < embedding_dim)%nat ->
  (forall text, List.length (encode text) = embedding_dim) ->
  build_multivector_database encode pdf_files = Some database ->
  find_reviewers encode embedding_dim database uploaded top_k ranking_method
  <> Uncaught.
Proof.
  intros Hd Henc Hb; unfold find_reviewers; cbv zeta.
  destruct (falsy (best_text (extract_multivector_text uploaded))
            && falsy (full_text (extract_multivector_text uploaded)));
    [discriminate|].
  assert (Hne : database <> [])
    by (eapply build_multivector_database_nonempty; eassumption).
  pose proof (built_database_well_formed encode embedding_dim pdf_files database
                (or_empty (best_text (extract_multivector_text uploaded)))
                (or_empty (full_text (extract_multivector_text uploaded)))
                Hd Henc Hb) as Hwf.
  destruct (paper_scores_ok _ _ _ _ Hne Hwf) as [A [B [Hs _]]].
  rewrite (find_similar_authors_steps _ _ _ _ top_k _ _ _ Hs).
  discriminate.
Qed.

Lemma page_never_raises_on_built_database_witness :
  find_reviewers unit_encoder 2
    [mkRecord "alice" "alice__broken.pdf" None None;
     mkRecord "bob" "bob__thesis.pdf" (Some [1; 0]) (Some [1; 0])]
    (Some ["some text"%string]) 5 by_max
  <> Uncaught.
Proof.
  apply (page_never_raises_on_built_database unit_encoder 2 sample_corpus).
  - lia.
  - reflexivity.
  - vm_compute; reflexivity.
Defined.

End AppFacts.
